(** * Twitter daily poster: rotation, time gate and text composition

    A shallow embedding of [main.py].  Python [str] values are sequences of
    Unicode code points, Python [int] values are [Z], the state dictionary
    is a record whose keys may be absent, and the effects of a run (files,
    environment, clock, random source, network) are passed explicitly. *)

From Stdlib Require Import ZArith NArith Lia Ascii String.
From stdpp Require Import base tactics option list numbers strings gmap.

Local Open Scope Z_scope.

(** ** Python strings *)

(** A Python [str]: a sequence of code points, so that [len] counts
    characters and the ellipsis U+2026 is one of them. *)
Abbreviation str := (list N).

(** ASCII literals of the source, as code points. *)
Definition py (s : string) : str := N_of_ascii <$> list_ascii_of_string s.

Definition ellipsis : N := 8230%N.

(** [len(x)] as a Python integer. *)
Definition len {A} (l : list A) : Z := Z.of_nat (length l).

(** [x[:k]]: a negative bound counts from the end. *)
Definition slice_to {A} (l : list A) (k : Z) : list A :=
  if 0 <=? k then take (Z.to_nat k) l else take (Z.to_nat (len l + k)) l.

(** [x[i]] with Python's negative indices; [None] stands for IndexError. *)
Definition getitem {A} (l : list A) (i : Z) : option A :=
  if 0 <=? i then l !! Z.to_nat i
  else if 0 <=? len l + i then l !! Z.to_nat (len l + i) else None.

(** [s.startswith(sub)] *)
Fixpoint startswith (sub s : str) : bool :=
  match sub, s with
  | [], _ => true
  | _ :: _, [] => false
  | a :: sub', b :: s' => (a =? b)%N && startswith sub' s'
  end.

(** [sub in s] *)
Fixpoint contains (sub s : str) : bool :=
  startswith sub s ||
  match s with
  | [] => false
  | _ :: s' => contains sub s'
  end.

(** [s.rfind(sub)]: the highest index at which [sub] starts, or [-1]. *)
Fixpoint rfind (sub s : str) : Z :=
  match s with
  | [] => if startswith sub [] then 0 else -1
  | _ :: s' =>
      let r := rfind sub s' in
      if 0 <=? r then r + 1 else if startswith sub s then 0 else -1
  end.

(** ** Length limiter *)

Definition trim_to_limit (text : str) (limit : Z) : str :=
  if len text <=? limit then text
  else
    let cutoff := slice_to text limit in
    let cutoff :=
      if contains (py " ") cutoff then slice_to cutoff (rfind (py " ") cutoff)
      else cutoff in
    slice_to cutoff (limit - 1) ++ [ellipsis].

(** ** More of [str] *)

(** The characters [str.strip] removes and [str.isspace] accepts. *)
Definition is_space (c : N) : bool :=
  ((9 <=? c) && (c <=? 13) || (28 <=? c) && (c <=? 32) ||
   (c =? 133) || (c =? 160) || (c =? 5760) ||
   (8192 <=? c) && (c <=? 8202) ||
   (c =? 8232) || (c =? 8233) || (c =? 8239) || (c =? 8287) ||
   (c =? 12288))%N.

(** The line boundaries of [str.splitlines]. *)
Definition is_linebreak (c : N) : bool :=
  ((10 <=? c) && (c <=? 13) || (28 <=? c) && (c <=? 30) ||
   (c =? 133) || (c =? 8232) || (c =? 8233))%N.

Fixpoint lstrip_by (f : N → bool) (s : str) : str :=
  match s with
  | [] => []
  | c :: s' => if f c then lstrip_by f s' else s
  end.

Definition strip_by (f : N → bool) (s : str) : str :=
  reverse (lstrip_by f (reverse (lstrip_by f s))).

(** [s.strip()] *)
Definition strip (s : str) : str := strip_by is_space s.

(** [s.lower()] on the letters A-Z.  The other code points are left as they
    are; none of them lowers to a character of ["1"], ["true"], ["yes"] or
    ["y"], the only strings a lowered value is compared with. *)
Definition lower (s : str) : str :=
  (λ c, if (65 <=? c) && (c <=? 90) then c + 32 else c)%N <$> s.

(** [s.replace(old, new)] for a non-empty [old]: every occurrence, left to
    right, without overlap.  [skip] counts the characters of a match that
    are still to be passed over. *)
Fixpoint replace_go (old new : str) (skip : nat) (s : str) : str :=
  match s with
  | [] => []
  | c :: s' =>
      match skip with
      | S k => replace_go old new k s'
      | O =>
          if startswith old s then new ++ replace_go old new (length old - 1) s'
          else c :: replace_go old new 0 s'
      end
  end.

Definition replace (old new s : str) : str := replace_go old new 0 s.

(** [s.split(sep)] for a one-character separator. *)
Fixpoint split_go (sep : N) (cur s : str) : list str :=
  match s with
  | [] => [cur]
  | c :: s' =>
      if (c =? sep)%N then cur :: split_go sep [] s'
      else split_go sep (cur ++ [c]) s'
  end.

Definition split (sep : N) (s : str) : list str := split_go sep [] s.

(** [s.splitlines()]: a carriage return followed by a line feed is one
    boundary, and no empty last line is produced. *)
Fixpoint splitlines_go (after_cr : bool) (cur s : str) : list str :=
  match s with
  | [] => match cur with [] => [] | _ => [cur] end
  | c :: s' =>
      if after_cr && (c =? 10)%N then splitlines_go false cur s'
      else if is_linebreak c then cur :: splitlines_go (c =? 13)%N [] s'
      else splitlines_go false (cur ++ [c]) s'
  end.

Definition splitlines (s : str) : list str := splitlines_go false [] s.

(** ** [int(s)] *)

(** The interpreter first maps the text to ASCII: characters below 127 are
    kept, other white space becomes a blank, other decimal digits become
    ['0'..'9'], anything else becomes ['?'].  [decimal] is the decimal-digit
    property of the interpreter's Unicode database. *)
Definition to_ascii (decimal : N → option N) (c : N) : N :=
  (if c <? 127 then c
   else if is_space c then 32
   else match decimal c with Some d => 48 + d | None => 63 end)%N.

(** White space of the C locale, skipped around the number. *)
Definition is_c_space (c : N) : bool :=
  ((9 <=? c) && (c <=? 13) || (c =? 32))%N.

(** Decimal digits with single underscores between them. *)
Fixpoint digits_value (acc : Z) (after_digit : bool) (s : str) : option Z :=
  match s with
  | [] => if after_digit then Some acc else None
  | c :: s' =>
      if ((48 <=? c) && (c <=? 57))%N
      then digits_value (10 * acc + (Z.of_N c - 48)) true s'
      else if (c =? 95)%N && after_digit then digits_value acc false s'
      else None
  end.

(** [int(s)]; [None] stands for ValueError. *)
Definition py_int (decimal : N → option N) (s : str) : option Z :=
  match strip_by is_c_space (to_ascii decimal <$> s) with
  | 43%N :: r => digits_value 0 false r
  | 45%N :: r => Z.opp <$> digits_value 0 false r
  | r => digits_value 0 false r
  end.

(** ** [random.shuffle] *)

(** The random source: a tape of draws and the position of the next one.
    Every sequence of outcomes of [randbelow] is the behaviour of some tape. *)
Record rng := { tape : nat → nat; pos : nat }.

Definition randbelow (g : rng) (n : nat) : nat * rng :=
  (Nat.modulo (tape g (pos g)) n, {| tape := tape g; pos := S (pos g) |}).

(** [x[i], x[j] = x[j], x[i]] *)
Definition swap {A} (x : list A) (i j : nat) : list A :=
  match x !! i, x !! j with
  | Some a, Some b => <[j:=a]> (<[i:=b]> x)
  | _, _ => x
  end.

(** The loop of [random.shuffle] from index [i] down to 1:
    [j = randbelow(i + 1); x[i], x[j] = x[j], x[i]]. *)
Fixpoint shuffle_from {A} (i : nat) (x : list A) (g : rng) : list A * rng :=
  match i with
  | O => (x, g)
  | S i' =>
      let '(j, g') := randbelow g (S i) in
      shuffle_from i' (swap x i j) g'
  end.

Definition shuffle {A} (x : list A) (g : rng) : list A * rng :=
  shuffle_from (length x - 1) x g.

(** ** Exceptions *)

Inductive exn : Set :=
  | FileNotFoundError
  | UnicodeDecodeError
  | ValueError
  | KeyError
  | IndexError
  | RuntimeError
  | UnknownTimeZoneError
  | TweepyException.

(** A computation that returns a value or raises. *)
Inductive res (A : Type) : Type :=
  | Ok (a : A)
  | Raise (e : exn).
Arguments Ok {A} a.
Arguments Raise {A} e.

#[global] Instance res_ret : MRet res := λ A a, Ok a.
#[global] Instance res_bind : MBind res := λ A B f m,
  match m with
  | Ok a => f a
  | Raise e => Raise e
  end.

(** [o] when it holds a value, otherwise raise [e]. *)
Definition or_raise {A} (e : exn) (o : option A) : res A :=
  match o with
  | Some a => Ok a
  | None => Raise e
  end.

(** ** Rotation state *)

(** The dictionary kept in [data/state.json].  A key may be absent; a key
    that is there holds a value of the type the program writes. *)
Record state := {
  index : option Z;
  order : option (list Z);
  last_posted_at : option str
}.

#[global] Instance state_eq_dec : EqDecision state.
Proof. solve_decision. Defined.

(** What [load_state] returns without a usable file. *)
Definition default_state : state :=
  {| index := Some 0; order := Some []; last_posted_at := None |}.

(** [ensure_order(state, n)]: the state after the call, the returned order
    and the random source after it. *)
Definition ensure_order (st : state) (n : Z) (g : rng) : state * list Z * rng :=
  let order0 := default [] (order st) in
  if bool_decide (order0 = []) || existsb (λ i, n <=? i) order0 then
    let '(order1, g') := shuffle (seqZ 0 n) g in
    ({| index := Some 0; order := Some order1;
        last_posted_at := last_posted_at st |}, order1, g')
  else (st, order0, g).

(** Lines 135-143 of [main]: read the cursor, reshuffle a consumed order,
    and read the idea index under the cursor.  Returns the cursor used, the
    idea index, the state and the random source. *)
Definition select (st : state) (g : rng) : res (Z * Z * state * rng) :=
  let idx := default 0 (index st) in
  order0 ← or_raise KeyError (order st);
  let '(idx, order1, st, g) :=
    if len order0 <=? idx then
      let '(order1, g') := shuffle order0 g in
      (0, order1,
       {| index := index st; order := Some order1;
          last_posted_at := last_posted_at st |}, g')
    else (idx, order0, st, g) in
  idea_index ← or_raise IndexError (getitem order1 idx);
  Ok (idx, idea_index, st, g).

(** Lines 154-155 of [main]: the state written after a successful post. *)
Definition advance (st : state) (idx : Z) (stamp : str) : state :=
  {| index := Some (idx + 1); order := order st;
     last_posted_at := Some stamp |}.

(** One turn of the rotation on a state held in memory: [ensure_order],
    selection, cursor advanced. *)
Definition rotate (n : Z) (stamp : str) (st : state) (g : rng)
  : res (Z * state * rng) :=
  let '(st, _, g) := ensure_order st n g in
  '(idx, idea_index, st, g) ← select st g;
  Ok (idea_index, advance st idx stamp, g).

(** [k] turns in a row; the idea indices selected, in order. *)
Fixpoint rotate_many (k : nat) (n : Z) (stamp : str) (st : state) (g : rng)
  : res (list Z * state * rng) :=
  match k with
  | O => Ok ([], st, g)
  | S k' =>
      '(i, st, g) ← rotate n stamp st g;
      '(picks, st, g) ← rotate_many k' n stamp st g;
      Ok (i :: picks, st, g)
  end.

(** ** Dates and times *)

Record datetime := {
  year : Z; month : Z; day : Z;
  hour : Z; minute : Z; second : Z; microsecond : Z
}.

(** [d.replace(hour=h, minute=m, second=0, microsecond=0)]; [None] stands
    for the ValueError of an hour or minute out of range. *)
Definition replace_time (d : datetime) (h m : Z) : option datetime :=
  if (0 <=? h) && (h <=? 23) && (0 <=? m) && (m <=? 59) then
    Some {| year := year d; month := month d; day := day d;
            hour := h; minute := m; second := 0; microsecond := 0 |}
  else None.

(** Two datetimes of one zone compare by their fields, most significant
    first. *)
Definition fields (d : datetime) : list Z :=
  [year d; month d; day d; hour d; minute d; second d; microsecond d].

Fixpoint lex_compare (a b : list Z) : comparison :=
  match a, b with
  | [], [] => Eq
  | [], _ :: _ => Lt
  | _ :: _, [] => Gt
  | x :: a', y :: b' =>
      match x ?= y with
      | Eq => lex_compare a' b'
      | c => c
      end
  end.

Definition dt_le (a b : datetime) : bool :=
  match lex_compare (fields a) (fields b) with Gt => false | _ => true end.
Definition dt_lt (a b : datetime) : bool :=
  match lex_compare (fields a) (fields b) with Lt => true | _ => false end.

(** The last two and the last four decimal digits of [n]. *)
Definition digit (n : Z) : N := Z.to_N (48 + n `mod` 10).
Definition pad2 (n : Z) : str := [digit (n / 10); digit n].
Definition pad4 (n : Z) : str :=
  [digit (n / 1000); digit (n / 100); digit (n / 10); digit n].

(** [d.strftime("%Y-%m-%d")] for the years 1..9999 of a [datetime]. *)
Definition strftime_ymd (d : datetime) : str :=
  pad4 (year d) ++ py "-" ++ pad2 (month d) ++ py "-" ++ pad2 (day d).

(** ** The libraries and the surroundings of a run *)

(** What the program takes from its libraries: the zone database of pytz,
    the decimal-digit property of the Unicode database, and the JSON codec
    restricted to state dictionaries ([None]: the text does not decode). *)
Class Host := {
  tzinfo : Type;
  pytz_timezone : str → option tzinfo;
  pytz_utc : tzinfo;
  unicode_decimal : N → option N;
  json_loads : str → option state;
  json_dumps : state → str
}.

(** A file: not there, there but not readable as UTF-8 text, or its text. *)
Inductive file : Type :=
  | Missing
  | Unreadable
  | Contents (text : str).

(** Everything a run reads from outside: the environment after
    [load_dotenv], the two files, the clock, the random source, the answer
    of the posting API, and the exception, if any, that writing the state
    file raises (FileNotFoundError when the [data] directory is not
    there). *)
Record world `{Host} := {
  environ : gmap string str;
  content_file : file;
  state_file : file;
  now_in : tzinfo → datetime;
  utc_stamp : str;
  gen : rng;
  update_status : str → bool;
  write_error : option exn
}.

Section Program.
Context `{Host}.

(** [os.getenv(key)] and [os.getenv(key, dflt)] *)
Definition getenv (w : world) (key : string) : option str := environ w !! key.
Definition getenv_or (w : world) (key : string) (dflt : str) : str :=
  default dflt (environ w !! key).

(** Truth value of a string or of [None]. *)
Definition truthy (o : option str) : bool :=
  match o with
  | Some (_ :: _) => true
  | _ => false
  end.

(** [a or b] *)
Definition py_or (a b : option str) : option str := if truthy a then a else b.

(** ** State store *)

Definition load_state (w : world) : state :=
  match state_file w with
  | Missing => default_state
  | Unreadable => default_state
  | Contents text =>
      match json_loads text with
      | Some st => st
      | None => default_state
      end
  end.

(** The surroundings [w] with the state file [f] on disk. *)
Definition with_state_file (w : world) (f : file) : world :=
  {| environ := environ w; content_file := content_file w; state_file := f;
     now_in := now_in w; utc_stamp := utc_stamp w; gen := gen w;
     update_status := update_status w; write_error := write_error w |}.

(** [save_state(state)]: [write_text] writes the file or raises. *)
Definition save_state (w : world) (st : state) : res world :=
  match write_error w with
  | Some e => Raise e
  | None => Ok (with_state_file w (Contents (json_dumps st)))
  end.

(** ** Idea store *)

Definition nonempty (s : str) : bool :=
  match s with [] => false | _ :: _ => true end.

Definition load_ideas (w : world) : res (list str) :=
  match content_file w with
  | Missing => Raise FileNotFoundError
  | Unreadable => Raise UnicodeDecodeError
  | Contents text =>
      let ideas := filter (λ l, nonempty l) (strip <$> splitlines text) in
      match ideas with
      | [] => Raise ValueError
      | _ :: _ => Ok ideas
      end
  end.

(** ** Time gate *)

(** [h, m = map(int, hm.split(":"))] *)
Definition parse_hm (hm : str) : option (Z * Z) :=
  match split 58 hm with
  | [a; b] =>
      h ← py_int unicode_decimal a;
      m ← py_int unicode_decimal b;
      Some (h, m)
  | _ => None
  end.

(** The body of the [try] of [within_run_window]; [None] stands for any
    exception raised inside it. *)
Definition window_check (w : world) (tzname start_hm end_hm : str)
  : option bool :=
  tz ← pytz_timezone tzname;
  let now := now_in w tz in
  '(sh, sm) ← parse_hm start_hm;
  '(eh, em) ← parse_hm end_hm;
  start ← replace_time now sh sm;
  end_ ← replace_time now eh em;
  if dt_le end_ start then Some (dt_le start now || dt_lt now end_)
  else Some (dt_le start now && dt_lt now end_).

Definition within_run_window (w : world) (tzname start_hm end_hm : str)
  : bool :=
  if negb (nonempty tzname && nonempty start_hm && nonempty end_hm) then true
  else
    match window_check w tzname start_hm end_hm with
    | Some b => b
    | None => true
    end.

(** ** Text composer *)

(** Lines 92-93 of [build_tweet]: the two settings read from the
    environment. *)
Definition add_date (w : world) : bool :=
  bool_decide (lower (getenv_or w "ADD_DATE" (py "true"))
               ∈ [py "1"; py "true"; py "yes"; py "y"]).

Definition add_hashtag (w : world) : str :=
  strip (getenv_or w "ADD_HASHTAG" []).

Definition build_tweet (w : world) (raw_text tzname : str) : res str :=
  tz ← (if nonempty tzname
        then or_raise UnknownTimeZoneError (pytz_timezone tzname)
        else Ok pytz_utc);
  let today := strftime_ymd (now_in w tz) in
  let parts :=
    [raw_text] ++
    (if add_date w then [[10; 10]%N ++ today] else []) ++
    (if nonempty (add_hashtag w) then [py " #" ++ add_hashtag w] else []) in
  let text := strip (concat parts) in
  Ok (trim_to_limit text 280).

(** Lines 145-146 of [main]. *)
Definition substitute_topic (topic raw_text : str) : str :=
  if nonempty topic && contains (py "{topic}") raw_text
  then replace (py "{topic}") topic raw_text
  else raw_text.

(** ** Publisher *)

Definition post_tweet (w : world) (text : str) : res unit :=
  let api_key := py_or (getenv w "TWITTER_API_KEY") (getenv w "X_API_KEY") in
  let api_secret :=
    py_or (getenv w "TWITTER_API_SECRET") (getenv w "X_API_SECRET") in
  let access_token :=
    py_or (getenv w "TWITTER_ACCESS_TOKEN") (getenv w "X_ACCESS_TOKEN") in
  let access_secret :=
    py_or (getenv w "TWITTER_ACCESS_SECRET") (getenv w "X_ACCESS_SECRET") in
  if negb (forallb truthy [api_key; api_secret; access_token; access_secret])
  then Raise RuntimeError
  else if update_status w text then Ok () else Raise TweepyException.

(** ** One run *)

(** How a run ends: skipped by the gate, in an exception before anything
    is posted, posted with the state saved, or posted and then in an
    exception of [save_state]. *)
Inductive outcome : Type :=
  | Skipped
  | Crashed (e : exn)
  | Posted (tweet : str)
  | Unsaved (tweet : str) (e : exn).

(** Lines 131-143 of [main]: the ideas, the state in memory, the cursor and
    the idea index selected. *)
Definition choose (w : world) : res (list str * state * Z * Z) :=
  ideas ← load_ideas w;
  let st := load_state w in
  let '(st, _, g) := ensure_order st (len ideas) (gen w) in
  '(idx, idea_index, st, _) ← select st g;
  Ok (ideas, st, idx, idea_index).

(** The settings [main] reads from the environment. *)
Definition topic (w : world) : str := strip (getenv_or w "TOPIC" []).
Definition timezone (w : world) : str :=
  getenv_or w "TIMEZONE" (py "Europe/Riga").
Definition run_window_start (w : world) : str :=
  getenv_or w "RUN_WINDOW_START" [].
Definition run_window_end (w : world) : str :=
  getenv_or w "RUN_WINDOW_END" [].

(** Lines 131-148 of [main], all that comes before the post: the state in
    memory, the cursor, the idea index and the text to post. *)
Definition attempt (w : world) : res (state * Z * Z * str) :=
  '(ideas, st, idx, idea_index) ← choose w;
  raw_text ← or_raise IndexError (getitem ideas idea_index);
  let raw_text := substitute_topic (topic w) raw_text in
  tweet ← build_tweet w raw_text (timezone w);
  Ok (st, idx, idea_index, tweet).

(** [main()]: how the run ends and what it leaves behind. *)
Definition main (w : world) : outcome * world :=
  if negb (within_run_window w (timezone w) (run_window_start w)
             (run_window_end w))
  then (Skipped, w)
  else
    match attempt w with
    | Raise e => (Crashed e, w)
    | Ok (st, idx, _, tweet) =>
        match post_tweet w tweet with
        | Raise e => (Crashed e, w)
        | Ok _ =>
            match save_state w (advance st idx (utc_stamp w)) with
            | Raise e => (Unsaved tweet e, w)
            | Ok w' => (Posted tweet, w')
            end
        end
    end.

End Program.

(** ** Launch after launch *)

Section Launches.
Context `{Host}.

(** The scheduler launches [main] once per day.  Each launch has its own
    surroundings; the state file is the one the launch before left.
    Returns how the launches end and the state file after the last. *)
Fixpoint run_days (days : list world) (f : file) : list outcome * file :=
  match days with
  | [] => ([], f)
  | d :: days' =>
      let '(o, w') := main (with_state_file d f) in
      let '(os, f') := run_days days' (state_file w') in
      (o :: os, f')
  end.

(** A day on which a launch can post and save: the ideas load, the window
    is open, the timezone is empty or known, the publisher accepts every
    post and the state file can be written. *)
Definition ready (d : world) (ideas : list str) : Prop :=
  load_ideas d = Ok ideas
  ∧ within_run_window d (timezone d) (run_window_start d) (run_window_end d)
    = true
  ∧ (timezone d = [] ∨ is_Some (pytz_timezone (timezone d)))
  ∧ (∀ text, post_tweet d text = Ok ())
  ∧ write_error d = None.

(** The launch of day [d] ends as [o]: it has posted the post composed
    from idea [i]. *)
Definition posts (ideas : list str) (o : outcome) (d : world) (i : Z) : Prop :=
  ∃ raw tweet,
    getitem ideas i = Some raw
    ∧ build_tweet d (substitute_topic (topic d) raw) (timezone d) = Ok tweet
    ∧ o = Posted tweet.

End Launches.

(** ** Notions used to state the properties *)

(** A bound written as two digits, a colon and two digits. *)
Definition hhmm (h m : Z) : str := pad2 h ++ py ":" ++ pad2 m.

(** Microseconds since midnight. *)
Definition time_of_day (h m s us : Z) : Z :=
  ((h * 60 + m) * 60 + s) * 1000000 + us.

Definition clock_reading (d : datetime) : Z :=
  time_of_day (hour d) (minute d) (second d) (microsecond d).

(** The ranges of the time fields of a [datetime]. *)
Definition valid_time (d : datetime) : Prop :=
  0 ≤ hour d ≤ 23 ∧ 0 ≤ minute d ≤ 59 ∧ 0 ≤ second d ≤ 59
  ∧ 0 ≤ microsecond d ≤ 999999.

(** ** A host and surroundings for the examples *)

(** Zones as minutes east of UTC; two of the database's names. *)
Definition sample_zone (name : str) : option Z :=
  if bool_decide (name = py "Europe/Riga") then Some 120
  else if bool_decide (name = py "UTC") then Some 0
  else None.

(** Arabic-Indic and fullwidth digits, two of the blocks of decimal digits. *)
Definition sample_decimal (c : N) : option N :=
  (if (1632 <=? c) && (c <=? 1641) then Some (c - 1632)
   else if (65296 <=? c) && (c <=? 65305) then Some (c - 65296)
   else None)%N.

(** The state documents of the examples and the dictionaries they hold. *)
Definition quoted (s : string) : str := [34%N] ++ py s ++ [34%N].

Definition sample_text (i o : string) : str :=
  py "{" ++ quoted "index" ++ py ": " ++ py i ++ py ", " ++
  quoted "order" ++ py ": " ++ py o ++ py ", " ++
  quoted "last_posted_at" ++ py ": null}".

Definition sample_documents : list (str * state) :=
  [ (py "{}", {| index := None; order := None; last_posted_at := None |});
    (sample_text "1" "[1, 0]",
     {| index := Some 1; order := Some [1; 0]; last_posted_at := None |});
    (sample_text "0" "[-2]",
     {| index := Some 0; order := Some [-2]; last_posted_at := None |}) ].

Definition sample_loads (text : str) : option state :=
  snd <$> find (λ d, bool_decide (d.1 = text)) sample_documents.

Definition sample_dumps (st : state) : str :=
  default (py "{}")
    (fst <$> find (λ d, bool_decide (d.2 = st)) sample_documents).

Definition sample_host : Host :=
  {| tzinfo := Z;
     pytz_timezone := sample_zone;
     pytz_utc := 0;
     unicode_decimal := sample_decimal;
     json_loads := sample_loads;
     json_dumps := sample_dumps |}.

(** A clock showing [h]:[m] on 2024-05-17 in every zone. *)
Definition clock_at (h m : Z) : Z → datetime :=
  λ _, {| year := 2024; month := 5; day := 17;
          hour := h; minute := m; second := 0; microsecond := 0 |}.

(** The four credentials, and a world around them: the clock shows
    [h]:[m], the random source draws [draws], the API answers [api], the
    state file can be written. *)
Definition sample_keys : gmap string str :=
  list_to_map
    [ ("TWITTER_API_KEY"%string, py "k"); ("TWITTER_API_SECRET"%string, py "s");
      ("X_ACCESS_TOKEN"%string, py "t"); ("X_ACCESS_SECRET"%string, py "u") ].

Definition sample_world (env : gmap string str) (ideas : file) (st : file)
    (h m : Z) (draws : nat → nat) (api : bool) : @world sample_host :=
  {| environ := env ∪ sample_keys; content_file := ideas; state_file := st;
     now_in := clock_at h m : @tzinfo sample_host → datetime;
     utc_stamp := py "2024-05-17T07:30:00Z";
     gen := {| tape := draws; pos := 0 |};
     update_status := λ _, api;
     write_error := None |}.

(** An ideas file of two lines, and settings without the date. *)
Definition two_ideas : file := Contents (py "a" ++ [10%N] ++ py "b").

Definition no_date : gmap string str := {[ "ADD_DATE"%string := py "no" ]}.

(** A closed window setting, 09:00 to 12:00 in Riga. *)
Definition morning_window : gmap string str :=
  list_to_map
    [ ("TIMEZONE"%string, py "Europe/Riga");
      ("RUN_WINDOW_START"%string, py "09:00");
      ("RUN_WINDOW_END"%string, py "12:00") ].



(** A checkout without the [data] directory: the API accepts the post,
    the state file cannot be written. *)
Definition without_data : @world sample_host :=
  {| environ := no_date ∪ sample_keys; content_file := two_ideas;
     state_file := Missing;
     now_in := clock_at 10 30 : @tzinfo sample_host → datetime;
     utc_stamp := py "2024-05-17T07:30:00Z";
     gen := {| tape := λ i, i; pos := 0 |};
     update_status := λ _, true;
     write_error := Some FileNotFoundError |}.


(** A host whose codec reads back every state it writes: a state is written
    as a sequence of numbers, one code point each, a negative number [z] as
    [-2z - 1] and any other as [2z]. *)
Definition zigzag (z : Z) : N :=
  if 0 <=? z then Z.to_N (2 * z) else Z.to_N (- 2 * z - 1).

Definition unzigzag (c : N) : Z :=
  if Z.even (Z.of_N c) then Z.of_N c / 2 else - ((Z.of_N c + 1) / 2).

Definition write_index (i : option Z) : str :=
  match i with
  | None => [0%N]
  | Some i => [1%N; zigzag i]
  end.

Definition read_index (text : str) : option (option Z * str) :=
  match text with
  | 0%N :: r => Some (None, r)
  | 1%N :: c :: r => Some (Some (unzigzag c), r)
  | _ => None
  end.

Definition write_order (o : option (list Z)) : str :=
  match o with
  | None => [0%N]
  | Some o => [1%N; N.of_nat (length o)] ++ (zigzag <$> o)
  end.

Definition read_order (text : str) : option (option (list Z) * str) :=
  match text with
  | 0%N :: r => Some (None, r)
  | 1%N :: n :: r =>
      if decide (N.to_nat n ≤ length r)%nat
      then Some (Some (unzigzag <$> take (N.to_nat n) r), drop (N.to_nat n) r)
      else None
  | _ => None
  end.

Definition write_stamp (t : option str) : str :=
  match t with
  | None => [0%N]
  | Some s => 1%N :: s
  end.

Definition read_stamp (text : str) : option (option str) :=
  match text with
  | [0%N] => Some None
  | 1%N :: s => Some (Some s)
  | _ => None
  end.

Definition numbers_dumps (st : state) : str :=
  write_index (index st) ++ write_order (order st)
  ++ write_stamp (last_posted_at st).

Definition numbers_loads (text : str) : option state :=
  '(i, r) ← read_index text;
  '(o, r) ← read_order r;
  t ← read_stamp r;
  Some {| index := i; order := o; last_posted_at := t |}.

Definition numbers_host : Host :=
  {| tzinfo := Z;
     pytz_timezone := sample_zone;
     pytz_utc := 0;
     unicode_decimal := sample_decimal;
     json_loads := numbers_loads;
     json_dumps := numbers_dumps |}.

(** A day of launches over that host: the two ideas, no date, the API
    accepting every post. *)
Definition numbers_day (draws : nat → nat) : @world numbers_host :=
  {| environ := no_date ∪ sample_keys; content_file := two_ideas;
     state_file := Missing;
     now_in := clock_at 10 30 : @tzinfo numbers_host → datetime;
     utc_stamp := py "2024-05-17T07:30:00Z";
     gen := {| tape := draws; pos := 0 |};
     update_status := λ _, true;
     write_error := None |}.

(** * Properties *)

(** ** Length limiter *)

Lemma len_app {A} (l k : list A) : len (l ++ k) = len l + len k.
Proof. unfold len. rewrite length_app. lia. Qed.

Lemma len_slice_to {A} (l : list A) (k : Z) : 0 ≤ k → len (slice_to l k) ≤ k.
Proof.
  intros Hk. unfold slice_to, len.
  destruct (Z.leb_spec 0 k); [|lia].
  rewrite length_take. lia.
Qed.

(** C8: a text that fits the limit is returned as it is. *)
Theorem trim_to_limit_within (text : str) (limit : Z) :
  len text ≤ limit → trim_to_limit text limit = text.
Proof.
  intros Hle. unfold trim_to_limit.
  destruct (Z.leb_spec (len text) limit); [reflexivity | lia].
Qed.

Lemma trim_to_limit_within_witness :
  len (py "a b c") ≤ 5 ∧ trim_to_limit (py "a b c") 5 = py "a b c".
Proof.
  split; [vm_compute; discriminate | apply trim_to_limit_within].
  vm_compute. discriminate.
Defined.

(** C4, as the claim states it, fails for a limit of zero: the ellipsis
    alone is longer than the limit. *)
Lemma trim_to_limit_zero_limit :
  0 < len (py "a") ∧ ¬ len (trim_to_limit (py "a") 0) ≤ 0.
Proof. split; vm_compute; [reflexivity | intros Hle; apply Hle; reflexivity]. Qed.

(** C4 (amended): for a limit of at least one, a text longer than the limit
    is cut to at most [limit] characters, the last of which is the
    ellipsis; ["a b c d e"] with limit 5 is cut at the last blank of its
    first five characters. *)
Theorem trim_to_limit_truncates (text : str) (limit : Z) :
  1 ≤ limit → limit < len text →
  len (trim_to_limit text limit) ≤ limit
  ∧ last (trim_to_limit text limit) = Some ellipsis
  ∧ trim_to_limit (py "a b c d e") 5 = py "a b" ++ [ellipsis].
Proof.
  intros Hlim Hlong. unfold trim_to_limit at 1 2.
  destruct (Z.leb_spec (len text) limit); [lia|].
  split; [|split; [apply last_snoc | reflexivity]].
  rewrite len_app.
  pose proof (len_slice_to
    (if contains (py " ") (slice_to text limit)
     then slice_to (slice_to text limit)
            (rfind (py " ") (slice_to text limit))
     else slice_to text limit) (limit - 1)).
  change (len [ellipsis]) with 1. lia.
Qed.

Lemma trim_to_limit_truncates_witness :
  (1 ≤ 8 ∧ 8 < len (py "hello world"))
  ∧ len (trim_to_limit (py "hello world") 8) ≤ 8
  ∧ last (trim_to_limit (py "hello world") 8) = Some ellipsis
  ∧ trim_to_limit (py "a b c d e") 5 = py "a b" ++ [ellipsis].
Proof.
  split; [split; vm_compute; [discriminate | reflexivity]|].
  apply trim_to_limit_truncates; vm_compute; [discriminate | reflexivity].
Defined.

(** ** Shuffling *)

Lemma insert_exchange {A} (t : list A) (j : nat) (a b : A) :
  t !! j = Some b → b :: <[j:=a]> t ≡ₚ a :: t.
Proof.
  revert j. induction t as [|c t IH]; intros [|j] Hj; simplify_eq/=.
  - apply perm_swap.
  - etrans; [apply perm_swap|].
    etrans; [apply perm_skip, (IH j Hj) | apply perm_swap].
Qed.

Lemma swap_Permutation {A} (x : list A) (i j : nat) : swap x i j ≡ₚ x.
Proof.
  unfold swap.
  destruct (x !! i) as [a|] eqn:Hi; [|reflexivity].
  destruct (x !! j) as [b|] eqn:Hj; [|reflexivity].
  revert i j Hi Hj.
  induction x as [|c x IH]; intros [|i] [|j] Hi Hj; simplify_eq/=.
  - reflexivity.
  - by apply insert_exchange.
  - by apply insert_exchange.
  - by rewrite (IH i j).
Qed.

Lemma shuffle_from_Permutation {A} (i : nat) (x : list A) (g : rng) :
  (shuffle_from i x g).1 ≡ₚ x.
Proof.
  revert x g. induction i as [|i IH]; intros x g; [reflexivity|].
  cbn [shuffle_from].
  destruct (randbelow g (S (S i))) as [j g'].
  rewrite IH. apply swap_Permutation.
Qed.

Lemma shuffle_Permutation {A} (x : list A) (g : rng) : (shuffle x g).1 ≡ₚ x.
Proof. apply shuffle_from_Permutation. Qed.

(** ** Rotation engine *)

Lemma existsb_ge_false (n : Z) (o : list Z) :
  (∀ v, v ∈ o → v < n) → existsb (λ i, n <=? i) o = false.
Proof.
  intros Hlt. apply not_true_is_false. intros Hex.
  apply existsb_exists in Hex as (v & Hin & Hv).
  apply list_elem_of_In, Hlt in Hin. lia.
Qed.

Lemma existsb_ge_true (n v : Z) (o : list Z) :
  v ∈ o → n ≤ v → existsb (λ i, n <=? i) o = true.
Proof.
  intros Hin Hv. apply existsb_exists. exists v.
  split; [by apply list_elem_of_In | lia].
Qed.

(** What [ensure_order] does: an order that is missing, empty or holds a
    value [v ≥ n] is replaced by a shuffle of [0, n) and the cursor is
    reset. *)
Lemma ensure_order_regenerates (st : state) (n : Z) (g : rng) :
  default [] (order st) = [] ∨ (∃ v, v ∈ default [] (order st) ∧ n ≤ v) →
  ∃ o g',
    ensure_order st n g =
      ({| index := Some 0; order := Some o;
          last_posted_at := last_posted_at st |}, o, g')
    ∧ o ≡ₚ seqZ 0 n.
Proof.
  intros Hbad. unfold ensure_order.
  assert (bool_decide (default [] (order st) = [])
          || existsb (λ i, n <=? i) (default [] (order st)) = true) as ->.
  { destruct Hbad as [->|(v & Hin & Hv)]; [done|].
    rewrite (existsb_ge_true n v) by done. apply orb_true_r. }
  pose proof (shuffle_Permutation (seqZ 0 n) g) as Hperm.
  destruct (shuffle (seqZ 0 n) g) as [o g']. by exists o, g'.
Qed.

(** Any other order is kept, with the cursor. *)
Lemma ensure_order_keeps (st : state) (n : Z) (g : rng) (o : list Z) :
  order st = Some o → o ≠ [] → (∀ v, v ∈ o → v < n) →
  ensure_order st n g = (st, o, g).
Proof.
  intros Ho Hne Hlt. unfold ensure_order. rewrite Ho. cbn [default].
  by rewrite bool_decide_eq_false_2, existsb_ge_false.
Qed.

Lemma Permutation_seqZ_lt (n : Z) (p : list Z) :
  p ≡ₚ seqZ 0 n → ∀ v, v ∈ p → 0 ≤ v < n.
Proof. intros Hp v Hv. rewrite Hp in Hv. apply elem_of_seqZ in Hv. lia. Qed.

Lemma getitem_nat {A} (l : list A) (k : nat) : getitem l (Z.of_nat k) = l !! k.
Proof.
  unfold getitem. destruct (Z.leb_spec 0 (Z.of_nat k)); [|lia].
  by rewrite Nat2Z.id.
Qed.

(** A cursor inside the order selects the item under it: no reshuffle and
    no random draw. *)
Lemma select_inside (st : state) (g : rng) (o : list Z) (k : nat) (x : Z) :
  order st = Some o → default 0 (index st) = Z.of_nat k → o !! k = Some x →
  select st g = Ok (Z.of_nat k, x, st, g).
Proof.
  intros Ho Hidx Hk. unfold select. rewrite Ho, Hidx.
  cbn [or_raise mbind res_bind].
  pose proof (lookup_lt_Some _ _ _ Hk) as Hlt.
  destruct (Z.leb_spec (len o) (Z.of_nat k)); [unfold len in *; lia|].
  by rewrite getitem_nat, Hk.
Qed.

(** A turn on a state whose order is a permutation of [0, n) and whose
    cursor [k] is inside it. *)
Lemma rotate_inside (n : Z) (stamp : str) (p : list Z) (k : nat) (x : Z)
    (t : option str) (g : rng) :
  p ≡ₚ seqZ 0 n → p !! k = Some x →
  rotate n stamp
    {| index := Some (Z.of_nat k); order := Some p; last_posted_at := t |} g
  = Ok (x, {| index := Some (Z.of_nat (S k)); order := Some p;
              last_posted_at := Some stamp |}, g).
Proof.
  intros Hp Hk. unfold rotate.
  rewrite (ensure_order_keeps _ n g p); [|done| |].
  - rewrite (select_inside _ g p k x) by done.
    cbn [mbind res_bind]. unfold advance. cbn [order].
    by rewrite Nat2Z.inj_succ.
  - intros ->. by rewrite lookup_nil in Hk.
  - intros v Hv. apply (Permutation_seqZ_lt n p Hp) in Hv. lia.
Qed.

Lemma rotate_many_inside (n : Z) (stamp : str) (p : list Z) (m k : nat)
    (t : option str) (g : rng) :
  p ≡ₚ seqZ 0 n → (k + m = length p)%nat →
  ∃ st,
    rotate_many m n stamp
      {| index := Some (Z.of_nat k); order := Some p; last_posted_at := t |} g
    = Ok (drop k p, st, g)
    ∧ order st = Some p ∧ index st = Some (Z.of_nat (k + m)).
Proof.
  intros Hp. revert k t. induction m as [|m IH]; intros k t Hkm.
  - eexists. cbn [rotate_many]. rewrite drop_ge by lia.
    split; [reflexivity|]. cbn. by rewrite Nat.add_0_r.
  - destruct (lookup_lt_is_Some_2 p k) as [x Hx]; [lia|].
    destruct (IH (S k) (Some stamp)) as (st & Hrun & Ho & Hi); [lia|].
    exists st. cbn [rotate_many].
    rewrite (rotate_inside n stamp p k x t g Hp Hx).
    cbn [mbind res_bind]. rewrite Hrun. cbn [mbind res_bind].
    rewrite (drop_S p x k Hx).
    split; [reflexivity|]. split; [done|]. rewrite Hi. f_equal. lia.
Qed.

(** The first turn on the default state regenerates the order; it then
    goes on as a turn on the regenerated state. *)
Lemma rotate_default (n : Z) (stamp : str) (g : rng) :
  1 ≤ n →
  rotate n stamp default_state g =
  rotate n stamp
    {| index := Some 0; order := Some (shuffle (seqZ 0 n) g).1;
       last_posted_at := None |} (shuffle (seqZ 0 n) g).2.
Proof.
  intros Hn.
  pose proof (shuffle_Permutation (seqZ 0 n) g) as Hperm.
  unfold rotate at 2.
  rewrite (ensure_order_keeps _ n _ (shuffle (seqZ 0 n) g).1); [|done| |].
  - unfold rotate, ensure_order. cbn [default_state order default].
    rewrite bool_decide_eq_true_2 by done. cbn [orb].
    by destruct (shuffle (seqZ 0 n) g).
  - intros Hnil. rewrite Hnil in Hperm.
    apply Permutation_nil_l in Hperm.
    apply (f_equal length) in Hperm. rewrite length_seqZ in Hperm.
    cbn in Hperm. lia.
  - intros v Hv. apply (Permutation_seqZ_lt n _ Hperm) in Hv. lia.
Qed.

(** C1: from the default state, [n ≥ 1] turns of the rotation select every
    index of [0, n) exactly once: the indices selected are the stored
    order, a permutation of [0, n), so none is missing and none repeats. *)
Theorem rotation_full_cycle (n : Z) (stamp : str) (g : rng) :
  1 ≤ n →
  ∃ picks st g',
    rotate_many (Z.to_nat n) n stamp default_state g = Ok (picks, st, g')
    ∧ order st = Some picks
    ∧ picks ≡ₚ seqZ 0 n
    ∧ NoDup picks
    ∧ ∀ i, i ∈ picks ↔ 0 ≤ i < n.
Proof.
  intros Hn.
  pose proof (shuffle_Permutation (seqZ 0 n) g) as Hperm.
  set (p := (shuffle (seqZ 0 n) g).1) in *.
  set (g1 := (shuffle (seqZ 0 n) g).2).
  assert (length p = Z.to_nat n) as Hlen.
  { by rewrite Hperm, length_seqZ. }
  destruct (Z.to_nat n) as [|m] eqn:Hm; [lia|].
  destruct (lookup_lt_is_Some_2 p 0) as [x Hx]; [lia|].
  destruct (rotate_many_inside n stamp p m 1 (Some stamp) g1 Hperm)
    as (st & Hrun & Ho & Hi); [lia|].
  exists p, st, g1. cbn [rotate_many].
  rewrite rotate_default by done. fold p g1.
  pose proof (rotate_inside n stamp p 0 x None g1 Hperm Hx) as Hfirst.
  change (Z.of_nat 0) with 0 in Hfirst. rewrite Hfirst.
  cbn [mbind res_bind]. rewrite Hrun. cbn [mbind res_bind].
  rewrite <- (drop_S p x 0 Hx). cbn [drop].
  split; [reflexivity|]. split; [done|]. split; [done|].
  split.
  - rewrite Hperm. apply NoDup_seqZ.
  - intros i. rewrite Hperm, elem_of_seqZ. lia.
Qed.

Lemma rotation_full_cycle_witness :
  1 ≤ 3 ∧
  ∃ picks st g',
    rotate_many (Z.to_nat 3) 3 (py "now") default_state
      {| tape := λ i, (i * 7 + 3)%nat; pos := 0 |} = Ok (picks, st, g')
    ∧ order st = Some picks
    ∧ picks ≡ₚ seqZ 0 3
    ∧ NoDup picks
    ∧ ∀ i, i ∈ picks ↔ 0 ≤ i < 3.
Proof. split; [lia | apply rotation_full_cycle; lia]. Defined.

(** C2: an order holding a negative value is neither empty nor holds a
    value [v ≥ n], so [ensure_order] keeps it, with the cursor, although it
    is no permutation of [0, n). *)
Theorem ensure_order_keeps_negative (g : rng) :
  let st := {| index := Some 0; order := Some [-2];
               last_posted_at := None |} in
  ensure_order st 1 g = (st, [-2], g) ∧ ¬ [-2] ≡ₚ seqZ 0 1.
Proof.
  split; [reflexivity|].
  intros Hperm. apply Permutation_singleton_l in Hperm. discriminate.
Qed.

(** ** Time gate *)

Section Gate.
Context `{Host}.

(** C10: without a timezone name the gate is open, whatever the bounds and
    the clock. *)
Theorem within_run_window_no_timezone (w : world) (start_hm end_hm : str) :
  within_run_window w [] start_hm end_hm = true.
Proof. reflexivity. Qed.

Lemma within_run_window_unset (w : world) (tzname start_hm end_hm : str) :
  tzname = [] ∨ start_hm = [] ∨ end_hm = [] →
  within_run_window w tzname start_hm end_hm = true.
Proof.
  unfold within_run_window.
  intros [-> | [-> | ->]]; [done| |]; destruct tzname; try done.
  by destruct start_hm.
Qed.

Lemma replace_time_Some (d d' : datetime) (h m : Z) :
  replace_time d h m = Some d' → 0 ≤ h ≤ 23 ∧ 0 ≤ m ≤ 59.
Proof.
  unfold replace_time. destruct (_ && _) eqn:Hrange; [|done]. lia.
Qed.

(** C6: an unknown timezone name, a bound that does not parse as two
    integers around a colon or whose hour or minute is out of range, and an
    empty bound all leave the gate open. *)
Theorem within_run_window_fails_open (w : world) (tzname start_hm end_hm : str) :
  pytz_timezone tzname = None
  ∨ (∀ h m, parse_hm start_hm = Some (h, m) → ¬ (0 ≤ h ≤ 23 ∧ 0 ≤ m ≤ 59))
  ∨ (∀ h m, parse_hm end_hm = Some (h, m) → ¬ (0 ≤ h ≤ 23 ∧ 0 ≤ m ≤ 59))
  ∨ start_hm = [] ∨ end_hm = [] →
  within_run_window w tzname start_hm end_hm = true.
Proof.
  intros Hbad.
  destruct Hbad as [Htz | [Hs | [He | Hunset]]];
    [| | |apply within_run_window_unset; tauto];
    unfold within_run_window;
    destruct (negb _); [done| |done| |done|]; unfold window_check.
  - by rewrite Htz.
  - destruct (pytz_timezone tzname) as [tz|]; [|done]. cbn [mbind option_bind].
    destruct (parse_hm start_hm) as [[sh sm]|]; [|done]. cbn [mbind option_bind].
    destruct (parse_hm end_hm) as [[eh em]|]; [|done]. cbn [mbind option_bind].
    destruct (replace_time _ sh sm) eqn:Hstart; [|done].
    exfalso. apply (Hs sh sm eq_refl). by eapply replace_time_Some.
  - destruct (pytz_timezone tzname) as [tz|]; [|done]. cbn [mbind option_bind].
    destruct (parse_hm start_hm) as [[sh sm]|]; [|done]. cbn [mbind option_bind].
    destruct (parse_hm end_hm) as [[eh em]|]; [|done]. cbn [mbind option_bind].
    destruct (replace_time _ sh sm); [|done]. cbn [mbind option_bind].
    destruct (replace_time _ eh em) eqn:Hend; [|done].
    exfalso. apply (He eh em eq_refl). by eapply replace_time_Some.
Qed.

(** Every bound written by [hhmm] is read back. *)
Lemma parse_hm_hhmm (h m : Z) :
  0 ≤ h ≤ 23 → 0 ≤ m ≤ 59 → parse_hm (hhmm h m) = Some (h, m).
Proof.
  intros Hh Hm.
  assert (forallb (λ h, forallb (λ m,
            bool_decide (parse_hm (hhmm h m) = Some (h, m)))
            (seqZ 0 60)) (seqZ 0 24) = true) as Hall
    by (vm_compute; reflexivity).
  rewrite forallb_forall in Hall.
  specialize (Hall h). rewrite forallb_forall in Hall.
  eapply bool_decide_eq_true_1, Hall; apply list_elem_of_In, elem_of_seqZ; lia.
Qed.

Lemma lex_compare_same_day (a b : datetime) :
  year a = year b → month a = month b → day a = day b →
  0 ≤ minute a ≤ 59 → 0 ≤ second a ≤ 59 → 0 ≤ microsecond a ≤ 999999 →
  0 ≤ minute b ≤ 59 → 0 ≤ second b ≤ 59 → 0 ≤ microsecond b ≤ 999999 →
  lex_compare (fields a) (fields b) = (clock_reading a ?= clock_reading b).
Proof.
  intros Hy Hmo Hd Hma Hsa Hua Hmb Hsb Hub.
  unfold fields, clock_reading, time_of_day. cbn [lex_compare].
  rewrite Hy, Hmo, Hd, !Z.compare_refl. symmetry.
  destruct (Z.compare_spec (hour a) (hour b)) as [->| |];
    [|apply Z.compare_lt_iff; lia|apply Z.compare_gt_iff; lia].
  destruct (Z.compare_spec (minute a) (minute b)) as [->| |];
    [|apply Z.compare_lt_iff; lia|apply Z.compare_gt_iff; lia].
  destruct (Z.compare_spec (second a) (second b)) as [->| |];
    [|apply Z.compare_lt_iff; lia|apply Z.compare_gt_iff; lia].
  destruct (Z.compare_spec (microsecond a) (microsecond b)) as [->| |];
    [apply Z.compare_refl|apply Z.compare_lt_iff; lia
    |apply Z.compare_gt_iff; lia].
Qed.

Lemma dt_le_same_day (a b : datetime) :
  lex_compare (fields a) (fields b) = (clock_reading a ?= clock_reading b) →
  dt_le a b = (clock_reading a <=? clock_reading b)
  ∧ dt_lt a b = (clock_reading a <? clock_reading b).
Proof.
  intros Hcmp. unfold dt_le, dt_lt, Z.leb, Z.ltb. rewrite Hcmp.
  by destruct (_ ?= _).
Qed.

(** C5: with a known timezone and bounds written HH:MM, the gate is open
    exactly from the start bound (included) to the end bound (excluded)
    when the start is before the end, and exactly from the start bound on
    or before the end bound otherwise. *)
Theorem within_run_window_open (w : world) (tzname : str) (tz : tzinfo)
    (sh sm eh em : Z) :
  tzname ≠ [] → pytz_timezone tzname = Some tz → valid_time (now_in w tz) →
  0 ≤ sh ≤ 23 → 0 ≤ sm ≤ 59 → 0 ≤ eh ≤ 23 → 0 ≤ em ≤ 59 →
  let now := clock_reading (now_in w tz) in
  let start := time_of_day sh sm 0 0 in
  let end_ := time_of_day eh em 0 0 in
  within_run_window w tzname (hhmm sh sm) (hhmm eh em) =
    if start <? end_ then (start <=? now) && (now <? end_)
    else (start <=? now) || (now <? end_).
Proof.
  intros Hname Htz (_ & Hmin & Hsec & Hus) Hsh Hsm Heh Hem now start end_.
  unfold within_run_window, window_check.
  destruct tzname as [|c tzname]; [done|].
  change (nonempty (hhmm sh sm)) with true.
  change (nonempty (hhmm eh em)) with true.
  cbn [nonempty andb negb].
  rewrite Htz. cbn [mbind option_bind].
  rewrite !parse_hm_hhmm by done. cbn [mbind option_bind].
  unfold replace_time.
  rewrite !(proj2 (andb_true_iff _ _)) by (repeat split; lia).
  cbn [mbind option_bind].
  set (d := now_in w tz) in *.
  set (s := {| year := year d; month := month d; day := day d; hour := sh;
               minute := sm; second := 0; microsecond := 0 |}).
  set (e := {| year := year d; month := month d; day := day d; hour := eh;
               minute := em; second := 0; microsecond := 0 |}).
  destruct (dt_le_same_day e s) as [Hes _];
    [by apply lex_compare_same_day|].
  destruct (dt_le_same_day s d) as [Hsd _];
    [by apply lex_compare_same_day|].
  destruct (dt_le_same_day d e) as [_ Hde];
    [by apply lex_compare_same_day|].
  rewrite Hes, Hsd, Hde.
  change (clock_reading s) with start. change (clock_reading e) with end_.
  fold now.
  destruct (Z.leb_spec end_ start), (Z.ltb_spec start end_); try lia;
    by destruct (_ <=? _), (_ <? _).
Qed.

End Gate.

Section Run.
Context `{Host}.

(** ** State store *)

(** C9: without a state file, or with one that cannot be read or decoded,
    [load_state] returns the default state: cursor 0, empty order, no
    time of a last post.  It returns a state in every case. *)
Theorem load_state_default (w : world) :
  state_file w = Missing ∨ state_file w = Unreadable
  ∨ (∃ text, state_file w = Contents text ∧ json_loads text = None) →
  load_state w = default_state
  ∧ default_state =
      {| index := Some 0; order := Some []; last_posted_at := None |}.
Proof.
  unfold load_state.
  intros [-> | [-> | (text & -> & ->)]]; by split.
Qed.

(** ** Text composer *)

Lemma concat_parts (a : str) (b c : list str) :
  concat ([a] ++ b ++ c) = a ++ concat b ++ concat c.
Proof. cbn [app concat]. by rewrite concat_app. Qed.

(** C7: the post is the idea text, with the placeholder replaced by a
    non-empty topic where it occurs, followed by two line feeds and the
    date as YYYY-MM-DD when the date flag is set, followed by a blank, a
    hash sign and the hashtag when there is one; the whole stripped, then
    limited to 280 characters.  ["Idea {topic}"] with topic ["X"], no date
    and no hashtag gives ["Idea X"]. *)
Theorem build_tweet_composition (w : world) (topic raw_text tzname : str)
    (tz : tzinfo) :
  (tzname = [] ∧ tz = pytz_utc) ∨ (tzname ≠ [] ∧ pytz_timezone tzname = Some tz) →
  let today := now_in w tz in
  let idea :=
    if nonempty topic && contains (py "{topic}") raw_text
    then replace (py "{topic}") topic raw_text else raw_text in
  let date_suffix :=
    if add_date w
    then [10; 10]%N ++ pad4 (year today) ++ py "-" ++ pad2 (month today)
         ++ py "-" ++ pad2 (day today)
    else [] in
  let hashtag_suffix :=
    if nonempty (add_hashtag w) then py " #" ++ add_hashtag w else [] in
  build_tweet w (substitute_topic topic raw_text) tzname =
    Ok (trim_to_limit (strip (idea ++ date_suffix ++ hashtag_suffix)) 280)
  ∧ (add_date w = false → add_hashtag w = [] →
     build_tweet w (substitute_topic (py "X") (py "Idea {topic}")) tzname =
       Ok (py "Idea X")).
Proof.
  intros Hzone today idea date_suffix hashtag_suffix.
  assert ((if nonempty tzname
           then or_raise UnknownTimeZoneError (pytz_timezone tzname)
           else Ok pytz_utc) = Ok tz) as Htz.
  { destruct Hzone as [[-> ->] | [Hne Hsome]]; [done|].
    destruct tzname; [done|]. cbn [nonempty]. by rewrite Hsome. }
  unfold build_tweet. rewrite Htz. cbn [mbind res_bind].
  split.
  - rewrite concat_parts. do 3 f_equal.
    subst date_suffix hashtag_suffix today.
    destruct (add_date w), (nonempty (add_hashtag w));
      cbn [concat]; by rewrite ?app_nil_r.
  - intros -> ->. reflexivity.
Qed.

(** ** One run *)

Lemma choose_inside (w : world) (ideas : list str) (o : list Z) (k : nat)
    (x : Z) :
  load_ideas w = Ok ideas → order (load_state w) = Some o →
  (∀ v, v ∈ o → v < len ideas) →
  default 0 (index (load_state w)) = Z.of_nat k → o !! k = Some x →
  choose w = Ok (ideas, load_state w, Z.of_nat k, x).
Proof.
  intros Hideas Ho Hlt Hidx Hk. unfold choose.
  rewrite Hideas. cbn [mbind res_bind].
  rewrite (ensure_order_keeps _ _ _ o); [|done| |done].
  - by rewrite (select_inside _ _ o k x).
  - intros ->. by rewrite lookup_nil in Hk.
Qed.


End Run.

(** * Instances *)

(** The order [-2] of C2 in a run: kept by [ensure_order], it is no index
    of the one idea, and the run ends in IndexError before any post. *)
Lemma negative_order_crashes_run :
  main (sample_world no_date (Contents (py "only idea"))
          (Contents (sample_text "0" "[-2]")) 10 30 (λ i, i) true)
  = (Crashed IndexError,
     sample_world no_date (Contents (py "only idea"))
       (Contents (sample_text "0" "[-2]")) 10 30 (λ i, i) true).
Proof. vm_compute. reflexivity. Qed.

Lemma within_run_window_fails_open_witness :
  @pytz_timezone sample_host (py "Mars/Phobos") = None
  ∧ within_run_window (sample_world ∅ Missing Missing 8 0 (λ i, i) true)
      (py "Mars/Phobos") (py "09:00") (py "12:00") = true.
Proof.
  split; [reflexivity|].
  apply within_run_window_fails_open. left. reflexivity.
Defined.

(** Bounds that fail to parse or are out of range, at 08:00. *)
Lemma within_run_window_malformed :
  Forall (λ bound,
    within_run_window (sample_world ∅ Missing Missing 8 0 (λ i, i) true)
      (py "Europe/Riga") bound (py "12:00") = true
    ∧ within_run_window (sample_world ∅ Missing Missing 8 0 (λ i, i) true)
      (py "Europe/Riga") (py "09:00") bound = true)
    [py "9am"; py "0900"; py "09:00:00"; py "25:00"; py "09:60"; py "-1:00";
     py ":"; py "nine:zero"].
Proof. repeat constructor. Qed.

(** The examples of C5: 09:00-12:00 at 10:30 and at 08:00, 22:00-02:00 at
    23:30 and at 03:00. *)
Lemma within_run_window_open_witness :
  within_run_window (sample_world ∅ Missing Missing 10 30 (λ i, i) true)
    (py "Europe/Riga") (py "09:00") (py "12:00") = true
  ∧ within_run_window (sample_world ∅ Missing Missing 8 0 (λ i, i) true)
      (py "Europe/Riga") (py "09:00") (py "12:00") = false
  ∧ within_run_window (sample_world ∅ Missing Missing 23 30 (λ i, i) true)
      (py "Europe/Riga") (py "22:00") (py "02:00") = true
  ∧ within_run_window (sample_world ∅ Missing Missing 3 0 (λ i, i) true)
      (py "Europe/Riga") (py "22:00") (py "02:00") = false.
Proof.
  split; [|split; [|split]].
  - refine (eq_trans (within_run_window_open (H:=sample_host) _
                        (py "Europe/Riga") 120
                        9 0 12 0 _ _ _ _ _ _ _) _);
      try reflexivity; try done; unfold valid_time; cbn; lia.
  - refine (eq_trans (within_run_window_open (H:=sample_host) _
                        (py "Europe/Riga") 120
                        9 0 12 0 _ _ _ _ _ _ _) _);
      try reflexivity; try done; unfold valid_time; cbn; lia.
  - refine (eq_trans (within_run_window_open (H:=sample_host) _
                        (py "Europe/Riga") 120
                        22 0 2 0 _ _ _ _ _ _ _) _);
      try reflexivity; try done; unfold valid_time; cbn; lia.
  - refine (eq_trans (within_run_window_open (H:=sample_host) _
                        (py "Europe/Riga") 120
                        22 0 2 0 _ _ _ _ _ _ _) _);
      try reflexivity; try done; unfold valid_time; cbn; lia.
Defined.

(** C10 at work: the same window at 08:00 closes the run with the
    timezone set and lets it through with the timezone empty. *)
Lemma empty_timezone_disables_gate :
  (main (sample_world morning_window two_ideas Missing 8 0 (λ i, i) true)).1
    = Skipped
  ∧ within_run_window (sample_world morning_window two_ideas Missing 8 0
                         (λ i, i) true) [] (py "09:00") (py "12:00") = true.
Proof. split; vm_compute; reflexivity. Qed.

Lemma load_state_default_witness :
  (∃ text,
     state_file (sample_world ∅ two_ideas (Contents (py "{index: ")) 10 30
                   (λ i, i) true) = Contents text
     ∧ @json_loads sample_host text = None)
  ∧ load_state (sample_world ∅ two_ideas (Contents (py "{index: ")) 10 30
                  (λ i, i) true) = default_state.
Proof.
  split; [by exists (py "{index: ")|].
  eapply proj1, load_state_default. right. right. by exists (py "{index: ").
Defined.

Lemma build_tweet_composition_witness :
  (py "UTC" ≠ [] ∧ @pytz_timezone sample_host (py "UTC") = Some 0)
  ∧ build_tweet (sample_world no_date two_ideas Missing 10 30 (λ i, i) true)
      (substitute_topic (py "X") (py "Idea {topic}")) (py "UTC")
    = Ok (py "Idea X").
Proof.
  split; [by split|].
  refine (proj2 (build_tweet_composition (H:=sample_host) _ [] []
                   (py "UTC") 0 _) _ _);
    [right; by split | reflexivity | reflexivity].
Defined.

(** The composition with the date and a hashtag. *)
Lemma build_tweet_date_hashtag :
  build_tweet
    (sample_world {[ "ADD_HASHTAG"%string := py " ai " ]} two_ideas Missing
       10 30 (λ i, i) true)
    (substitute_topic (py "X") (py "Idea {topic}")) (py "Europe/Riga")
  = Ok (py "Idea X" ++ [10; 10]%N ++ py "2024-05-17 #ai").
Proof. vm_compute. reflexivity. Qed.



(** * Further properties *)

(** ** Length limiter, continued *)

Lemma contains_single (c : N) (s : str) : contains [c] s = true ↔ c ∈ s.
Proof.
  induction s as [|x s IH]; cbn [contains startswith].
  - split; [done | by intros ?%elem_of_nil].
  - rewrite andb_true_r, orb_true_iff, IH, elem_of_cons, N.eqb_eq. tauto.
Qed.

Lemma rfind_single_absent (c : N) (s : str) : c ∉ s → rfind [c] s = -1.
Proof.
  induction s as [|x s IH]; intros Hc; [done|].
  apply not_elem_of_cons in Hc as [Hx Hs].
  cbn [rfind startswith]. rewrite (IH Hs). cbn.
  by rewrite andb_true_r, (proj2 (N.eqb_neq c x)).
Qed.

(** [rfind] of a character that occurs: the last position where it does. *)
Lemma rfind_single_last (c : N) (s : str) :
  c ∈ s →
  ∃ r : nat, rfind [c] s = Z.of_nat r ∧ s !! r = Some c
    ∧ ∀ j, (r < j)%nat → s !! j ≠ Some c.
Proof.
  induction s as [|x s IH]; intros Hc; [by apply elem_of_nil in Hc|].
  cbn [rfind startswith]. rewrite andb_true_r.
  destruct (decide (c ∈ s)) as [Hin|Hout].
  - destruct (IH Hin) as (r & -> & Hr & Hlast).
    exists (S r). destruct (Z.leb_spec 0 (Z.of_nat r)); [|lia].
    split; [lia|]. split; [done|].
    intros [|j] Hj; [lia|]. cbn. apply Hlast. lia.
  - rewrite (rfind_single_absent c s Hout). cbn.
    apply elem_of_cons in Hc as [->|]; [|done].
    rewrite N.eqb_refl. exists 0%nat. split; [done|]. split; [done|].
    intros [|j] Hj; [lia|]. cbn. intros Hsome.
    apply Hout. by eapply list_elem_of_lookup_2.
Qed.

(** Whatever the text, the result fits a limit of at least one. *)
Lemma trim_to_limit_bound (text : str) (limit : Z) :
  1 ≤ limit → len (trim_to_limit text limit) ≤ limit.
Proof.
  intros Hlim. unfold trim_to_limit.
  destruct (Z.leb_spec (len text) limit); [done|].
  rewrite len_app.
  pose proof (len_slice_to
    (if contains (py " ") (slice_to text limit)
     then slice_to (slice_to text limit)
            (rfind (py " ") (slice_to text limit))
     else slice_to text limit) (limit - 1)).
  change (len [ellipsis]) with 1. lia.
Qed.

Lemma slice_to_nat {A} (l : list A) (k : nat) : slice_to l (Z.of_nat k) = take k l.
Proof.
  unfold slice_to. destruct (Z.leb_spec 0 (Z.of_nat k)); [|lia].
  by rewrite Nat2Z.id.
Qed.

(** X1: where a text is cut.  With a blank among its first [limit]
    characters, a text longer than the limit is cut right before the last
    such blank; without one it is cut after [limit - 1] characters.  The
    ellipsis follows the part kept. *)
Theorem trim_to_limit_cut (text : str) (limit : nat) :
  (1 ≤ limit)%nat → (limit < length text)%nat →
  (∀ r, (r < limit)%nat → text !! r = Some 32%N →
        (∀ j, (r < j < limit)%nat → text !! j ≠ Some 32%N) →
        trim_to_limit text (Z.of_nat limit) = take r text ++ [ellipsis])
  ∧ ((∀ j, (j < limit)%nat → text !! j ≠ Some 32%N) →
     trim_to_limit text (Z.of_nat limit)
       = take (limit - 1) text ++ [ellipsis]).
Proof.
  intros Hlim Hlong.
  assert (trim_to_limit text (Z.of_nat limit) =
    slice_to
      (if contains [32%N] (take limit text)
       then slice_to (take limit text) (rfind [32%N] (take limit text))
       else take limit text) (Z.of_nat (limit - 1)) ++ [ellipsis]) as ->.
  { unfold trim_to_limit.
    destruct (Z.leb_spec (len text) (Z.of_nat limit));
      [unfold len in *; lia|].
    rewrite slice_to_nat. change (py " ") with [32%N].
    by replace (Z.of_nat limit - 1) with (Z.of_nat (limit - 1)) by lia. }
  split.
  - intros r Hr Hblank Hlast.
    assert (32%N ∈ take limit text) as Hin.
    { apply list_elem_of_lookup. exists r. by rewrite lookup_take_lt. }
    rewrite (proj2 (contains_single _ _) Hin).
    destruct (rfind_single_last _ _ Hin) as (r' & -> & Hr' & Hlast').
    assert (r' < limit)%nat as Hlt'.
    { apply lookup_lt_Some in Hr'. rewrite length_take in Hr'. lia. }
    rewrite lookup_take_lt in Hr' by done.
    assert (r' = r) as ->.
    { destruct (Nat.lt_total r' r) as [Hlt|[->|Hgt]]; [|done|].
      - exfalso. apply (Hlast' r Hlt). by rewrite lookup_take_lt.
      - exfalso. apply (Hlast r'); [lia | done]. }
    rewrite !slice_to_nat, !take_take. do 2 f_equal. lia.
  - intros Hnone.
    assert (32%N ∉ take limit text) as Hout.
    { intros (j & Hj)%list_elem_of_lookup.
      pose proof (lookup_lt_Some _ _ _ Hj) as Hlt.
      rewrite length_take in Hlt.
      rewrite lookup_take_lt in Hj by lia. apply (Hnone j); [lia | done]. }
    destruct (contains [32%N] (take limit text)) eqn:Hc.
    { by apply contains_single in Hc. }
    rewrite slice_to_nat, take_take. do 2 f_equal. lia.
Qed.

Lemma trim_to_limit_cut_witness :
  ((1 ≤ 8)%nat ∧ (8 < length (py "hello brave world"))%nat
   ∧ py "hello brave world" !! 5%nat = Some 32%N)
  ∧ trim_to_limit (py "hello brave world") (Z.of_nat 8)
    = take 5 (py "hello brave world") ++ [ellipsis].
Proof.
  split; [repeat split; vm_compute; lia|].
  refine (proj1 (trim_to_limit_cut (py "hello brave world") 8 _ _) 5%nat _ _ _).
  - lia.
  - vm_compute; lia.
  - lia.
  - reflexivity.
  - intros j Hj. assert (j = 6 ∨ j = 7)%nat as [->| ->] by lia; done.
Defined.

(** X2: limiting twice is limiting once. *)
Theorem trim_to_limit_idempotent (text : str) (limit : Z) :
  1 ≤ limit →
  trim_to_limit (trim_to_limit text limit) limit = trim_to_limit text limit.
Proof.
  intros Hlim. pose proof (trim_to_limit_bound text limit Hlim) as Hle.
  unfold trim_to_limit at 1.
  by destruct (Z.leb_spec (len (trim_to_limit text limit)) limit); [|lia].
Qed.

Lemma trim_to_limit_idempotent_witness :
  1 ≤ 5 ∧
  trim_to_limit (trim_to_limit (py "a b c d e") 5) 5
  = trim_to_limit (py "a b c d e") 5.
Proof. split; [lia | apply trim_to_limit_idempotent; lia]. Defined.

(** ** Stripping *)

Lemma lstrip_by_head (f : N → bool) (s : str) (c : N) :
  head (lstrip_by f s) = Some c → f c = false.
Proof.
  induction s as [|x s IH]; [done|]. cbn [lstrip_by].
  destruct (f x) eqn:Hx; [done|]. cbn. by intros [= <-].
Qed.

Lemma lstrip_by_fixed (f : N → bool) (s : str) :
  (∀ c, head s = Some c → f c = false) → lstrip_by f s = s.
Proof.
  destruct s as [|x s]; [done|]. intros Hhead. cbn.
  by rewrite (Hhead x).
Qed.

Lemma lstrip_by_nil (f : N → bool) (s : str) :
  lstrip_by f s = [] ↔ Forall (λ c, f c = true) s.
Proof.
  induction s as [|x s IH]; [by split|]. cbn [lstrip_by].
  rewrite Forall_cons. destruct (f x) eqn:Hx; [tauto|].
  split; [done | by intros [? _]].
Qed.

Lemma lstrip_by_suffix (f : N → bool) (s : str) : lstrip_by f s `suffix_of` s.
Proof.
  induction s as [|x s IH]; [done|]. cbn [lstrip_by].
  destruct (f x); [by apply suffix_cons_r | done].
Qed.

Lemma suffix_last {A} (a b : list A) :
  a `suffix_of` b → a ≠ [] → last a = last b.
Proof.
  intros [p ->] Hne. destruct a as [|x a]; [done|].
  by rewrite last_app_cons.
Qed.

Lemma strip_by_sublist (f : N → bool) (s : str) (c : N) :
  c ∈ strip_by f s → c ∈ s.
Proof.
  unfold strip_by. rewrite elem_of_reverse. intros Hc.
  pose proof (elem_of_suffix _ _ _ Hc
    (lstrip_by_suffix f (reverse (lstrip_by f s)))) as Hc'.
  apply (proj1 (elem_of_reverse _ _)) in Hc'.
  exact (elem_of_suffix _ _ _ Hc' (lstrip_by_suffix f s)).
Qed.

(** What is left after stripping neither starts nor ends with a character
    that is stripped. *)
Lemma strip_by_edges (f : N → bool) (s : str) (c : N) :
  head (strip_by f s) = Some c ∨ last (strip_by f s) = Some c → f c = false.
Proof.
  unfold strip_by. rewrite head_reverse, last_reverse.
  intros [Hlast|Hhead]; [|by eapply lstrip_by_head].
  destruct (decide (lstrip_by f (reverse (lstrip_by f s)) = [])) as [Hnil|Hne].
  { by rewrite Hnil in Hlast. }
  rewrite (suffix_last _ _ (lstrip_by_suffix f _) Hne), last_reverse in Hlast.
  by eapply lstrip_by_head.
Qed.

Lemma strip_by_fixed (f : N → bool) (s : str) :
  (∀ c, head s = Some c ∨ last s = Some c → f c = false) →
  strip_by f s = s.
Proof.
  intros Hedges. unfold strip_by.
  rewrite (lstrip_by_fixed f s) by auto.
  rewrite lstrip_by_fixed, reverse_involutive; [done|].
  intros c. rewrite head_reverse. auto.
Qed.

Lemma strip_by_idempotent (f : N → bool) (s : str) :
  strip_by f (strip_by f s) = strip_by f s.
Proof. apply strip_by_fixed. intros c. apply strip_by_edges. Qed.

Lemma strip_by_nil (f : N → bool) (s : str) :
  strip_by f s = [] ↔ Forall (λ c, f c = true) s.
Proof.
  unfold strip_by.
  rewrite <- (reverse_involutive []), (inj_iff reverse).
  change (reverse []) with (@nil N).
  rewrite lstrip_by_nil, Forall_reverse.
  split.
  - intros Hall. apply lstrip_by_nil.
    destruct (lstrip_by f s) as [|x t] eqn:Hstrip; [done|].
    apply Forall_cons in Hall as [Hx _].
    by rewrite (lstrip_by_head f s x) in Hx by (by rewrite Hstrip).
  - intros Hall. by rewrite (proj2 (lstrip_by_nil f s) Hall).
Qed.

Ltac bool_to_prop :=
  rewrite ?orb_true_iff, ?andb_true_iff, ?N.leb_le, ?N.eqb_eq in *.

Lemma is_linebreak_space (c : N) : is_linebreak c = true → is_space c = true.
Proof. unfold is_linebreak, is_space. bool_to_prop. lia. Qed.

(** ** Idea store *)

(** The lines hold no line boundary, and nothing that the text did not. *)
Lemma splitlines_go_lines (b : bool) (cur s : str) :
  Forall (λ c, is_linebreak c = false) cur →
  ∀ line c, line ∈ splitlines_go b cur s → c ∈ line →
    is_linebreak c = false ∧ c ∈ cur ++ s.
Proof.
  revert b cur. induction s as [|x s IH]; intros b cur Hcur line c Hline Hc.
  - cbn in Hline. destruct cur; [by apply elem_of_nil in Hline|].
    apply list_elem_of_singleton in Hline as ->. rewrite app_nil_r.
    split; [|done]. by eapply (proj1 (Forall_forall _ _) Hcur).
  - cbn [splitlines_go] in Hline.
    destruct (b && (x =? 10)%N).
    { destruct (IH _ _ Hcur line c Hline Hc) as [? Hin]. split; [done|].
      set_solver. }
    destruct (is_linebreak x) eqn:Hx.
    + apply elem_of_cons in Hline as [->|Hline].
      * split; [by eapply (proj1 (Forall_forall _ _) Hcur) | set_solver].
      * destruct (IH _ [] (Forall_nil_2 _) line c Hline Hc) as [? Hin].
        split; [done | set_solver].
    + assert (Forall (λ c, is_linebreak c = false) (cur ++ [x])) as Hcur'
        by (apply Forall_app; auto).
      destruct (IH _ _ Hcur' line c Hline Hc) as [? Hin].
      split; [done|]. by rewrite <- app_assoc in Hin.
Qed.

(** Every character that is no line boundary is in one of the lines. *)
Lemma splitlines_go_covers (b : bool) (cur s : str) (c : N) :
  c ∈ cur ++ s → is_linebreak c = false →
  ∃ line, line ∈ splitlines_go b cur s ∧ c ∈ line.
Proof.
  revert b cur. induction s as [|x s IH]; intros b cur Hc Hnb.
  - rewrite app_nil_r in Hc. cbn. destruct cur; [by apply elem_of_nil in Hc|].
    eexists. split; [apply list_elem_of_singleton; reflexivity | done].
  - cbn [splitlines_go].
    destruct (b && (x =? 10)%N) eqn:Hskip.
    { apply andb_true_iff in Hskip as [_ ->%N.eqb_eq].
      apply IH; [|done].
      apply elem_of_app in Hc as [?|[->|?]%elem_of_cons]; [set_solver|done|set_solver]. }
    destruct (is_linebreak x) eqn:Hx.
    + apply elem_of_app in Hc as [?|[->|?]%elem_of_cons].
      * exists cur. set_solver.
      * congruence.
      * destruct (IH (x =? 13)%N [] ltac:(set_solver) Hnb) as (line & ? & ?).
        exists line. set_solver.
    + apply IH; [|done]. rewrite <- app_assoc. done.
Qed.

Lemma filter_nonempty_nil (ls : list str) :
  filter (λ l, nonempty l) ls = [] ↔ Forall (λ l, l = []) ls.
Proof.
  induction ls as [|l ls IH]; [by split|].
  rewrite Forall_cons, <- IH. destruct l as [|x l].
  - rewrite filter_cons_False by (cbn; auto). tauto.
  - rewrite filter_cons_True by done. split; [done | by intros [? _]].
Qed.

Lemma ideas_nil_iff (text : str) :
  filter (λ l, nonempty l) (strip <$> splitlines text) = []
  ↔ Forall (λ c, is_space c = true) text.
Proof.
  rewrite filter_nonempty_nil, Forall_fmap. split.
  - intros Hlines. apply Forall_forall. intros c Hc.
    destruct (is_linebreak c) eqn:Hb; [by apply is_linebreak_space|].
    destruct (splitlines_go_covers false [] text c Hc Hb) as (line & Hl & Hcl).
    apply (proj1 (Forall_forall _ _) Hlines) in Hl. cbn in Hl.
    apply strip_by_nil in Hl.
    by apply (proj1 (Forall_forall _ _) Hl).
  - intros Hall. apply Forall_forall. intros line Hl. cbn.
    apply strip_by_nil, Forall_forall. intros c Hc.
    destruct (splitlines_go_lines false [] text (Forall_nil_2 _) line c Hl Hc)
      as [_ Hin].
    by apply (proj1 (Forall_forall _ _) Hall).
Qed.

Section Ideas.
Context `{Host}.

(** X3: the errors of [load_ideas].  It raises FileNotFoundError without
    the file, and ValueError exactly when the file holds nothing but white
    space (line boundaries included); a file with any other character gives
    a list of ideas. *)
Theorem load_ideas_errors (w : world) (e : exn) :
  load_ideas w = Raise e ↔
    (content_file w = Missing ∧ e = FileNotFoundError)
    ∨ (content_file w = Unreadable ∧ e = UnicodeDecodeError)
    ∨ (∃ text, content_file w = Contents text
         ∧ Forall (λ c, is_space c = true) text ∧ e = ValueError).
Proof.
  unfold load_ideas. destruct (content_file w) as [| |text].
  - split; [intros [= <-]; by left | intros [[_ ->]|[[? _]|(?&?&_)]]; done].
  - split; [intros [= <-]; right; by left
           | intros [[? _]|[[_ ->]|(?&?&_)]]; done].
  - pose proof (ideas_nil_iff text) as Hnil.
    destruct (filter _ _) as [|idea ideas].
    + split.
      * intros [= <-]. right. right. exists text. by rewrite <- Hnil.
      * intros [[? _]|[[? _]|(?&?&_&->)]]; done.
    + split; [done|].
      intros [[? _]|[[? _]|(text'&[= <-]&Hall&_)]]; [done..|].
      by apply Hnil in Hall.
Qed.

(** X4: the ideas returned.  There is at least one; each is a stripped,
    non-empty line of the file: it neither starts nor ends with white
    space, holds no line boundary, and all its characters are the file's. *)
Theorem load_ideas_lines (w : world) (ideas : list str) :
  load_ideas w = Ok ideas →
  ideas ≠ []
  ∧ ∀ idea, idea ∈ ideas →
      idea ≠ [] ∧ strip idea = idea
      ∧ (∀ c, head idea = Some c ∨ last idea = Some c → is_space c = false)
      ∧ ∃ text, content_file w = Contents text
          ∧ ∀ c, c ∈ idea → is_linebreak c = false ∧ c ∈ text.
Proof.
  unfold load_ideas. destruct (content_file w) as [| |text]; [done..|].
  destruct (filter _ _) as [|i0 is0] eqn:Hfilter; [done|].
  intros [= <-]. split; [done|].
  intros idea Hidea. rewrite <- Hfilter in Hidea.
  apply list_elem_of_filter in Hidea as [Hne Hin].
  apply list_elem_of_fmap in Hin as (line & -> & Hline).
  split; [by destruct (strip line)|].
  split; [apply strip_by_idempotent|].
  split; [apply strip_by_edges|].
  exists text. split; [done|]. intros c Hc.
  apply strip_by_sublist in Hc.
  exact (splitlines_go_lines false [] text (Forall_nil_2 _) line c Hline Hc).
Qed.

End Ideas.

Lemma load_ideas_lines_witness :
  load_ideas (sample_world ∅ two_ideas Missing 10 30 (λ i, i) true)
    = Ok [py "a"; py "b"]
  ∧ [py "a"; py "b"] ≠ []
  ∧ ∀ idea, idea ∈ [py "a"; py "b"] →
      idea ≠ [] ∧ strip idea = idea
      ∧ (∀ c, head idea = Some c ∨ last idea = Some c → is_space c = false)
      ∧ ∃ text, content_file
                  (sample_world ∅ two_ideas Missing 10 30 (λ i, i) true)
                = Contents text
          ∧ ∀ c, c ∈ idea → is_linebreak c = false ∧ c ∈ text.
Proof.
  split; [reflexivity|].
  apply (load_ideas_lines (H:=sample_host)). reflexivity.
Defined.

(** ** Text composer, continued *)

Lemma head_slice_to {A} (l : list A) (k : Z) (c : A) :
  head (slice_to l k) = Some c → head l = Some c.
Proof.
  unfold slice_to.
  destruct (0 <=? k); [destruct (Z.to_nat k) | destruct (Z.to_nat _)];
    by destruct l.
Qed.

Lemma trim_to_limit_edges (text : str) (limit : Z) (c : N) :
  (∀ c, head text = Some c ∨ last text = Some c → is_space c = false) →
  head (trim_to_limit text limit) = Some c
  ∨ last (trim_to_limit text limit) = Some c →
  is_space c = false.
Proof.
  intros Htext. unfold trim_to_limit.
  destruct (len text <=? limit); [apply Htext|].
  rewrite last_snoc. intros [Hhead|[= <-]]; [|done].
  destruct (slice_to _ (limit - 1)) as [|x cut] eqn:Hcut.
  { by injection Hhead as <-. }
  injection Hhead as ->.
  assert (head (slice_to text limit) = Some c) as Hc.
  { destruct (contains _ _).
    - eapply head_slice_to, head_slice_to. by rewrite Hcut.
    - eapply head_slice_to. by rewrite Hcut. }
  apply head_slice_to in Hc. auto.
Qed.

Section Composer.
Context `{Host}.

(** X5: whatever the idea, the settings and the date, a composed post has
    at most 280 characters and neither starts nor ends with white space. *)
Theorem build_tweet_fits (w : world) (raw_text tzname tweet : str) :
  build_tweet w raw_text tzname = Ok tweet →
  len tweet ≤ 280
  ∧ ∀ c, head tweet = Some c ∨ last tweet = Some c → is_space c = false.
Proof.
  unfold build_tweet.
  destruct (if nonempty tzname then _ else _) as [tz|]; [|done].
  cbn [mbind res_bind]. intros [= <-]. split.
  - apply trim_to_limit_bound. lia.
  - intros c. apply trim_to_limit_edges. intros c'. apply strip_by_edges.
Qed.

End Composer.

Lemma build_tweet_fits_witness :
  build_tweet
    (sample_world {[ "ADD_HASHTAG"%string := py " ai " ]} two_ideas Missing
       10 30 (λ i, i) true)
    (py "Idea X") (py "Europe/Riga")
  = Ok (py "Idea X" ++ [10; 10]%N ++ py "2024-05-17 #ai")
  ∧ len (py "Idea X" ++ [10; 10]%N ++ py "2024-05-17 #ai") ≤ 280
  ∧ ∀ c, head (py "Idea X" ++ [10; 10]%N ++ py "2024-05-17 #ai") = Some c
         ∨ last (py "Idea X" ++ [10; 10]%N ++ py "2024-05-17 #ai") = Some c →
         is_space c = false.
Proof.
  split; [vm_compute; reflexivity|].
  apply (build_tweet_fits (H:=sample_host)
           (sample_world {[ "ADD_HASHTAG"%string := py " ai " ]} two_ideas
              Missing 10 30 (λ i, i) true) (py "Idea X") (py "Europe/Riga")).
  vm_compute. reflexivity.
Defined.

(** ** Rotation engine, continued *)

(** X6: the two cases of [ensure_order].  An order that is missing, empty
    or holds a value [v ≥ n] is replaced by a permutation of [0, n), the
    cursor is set to 0 and the time of the last post is kept; in every
    other case the state, the order and the random source are left as they
    are. *)
Theorem ensure_order_cases (st : state) (n : Z) (g : rng) :
  (default [] (order st) = [] ∨ (∃ v, v ∈ default [] (order st) ∧ n ≤ v) →
   ∃ o g',
     ensure_order st n g =
       ({| index := Some 0; order := Some o;
           last_posted_at := last_posted_at st |}, o, g')
     ∧ o ≡ₚ seqZ 0 n ∧ len o = Z.max 0 n ∧ NoDup o)
  ∧ (default [] (order st) ≠ [] → (∀ v, v ∈ default [] (order st) → v < n) →
     ensure_order st n g = (st, default [] (order st), g)
     ∧ order st = Some (default [] (order st))).
Proof.
  split.
  - intros Hbad.
    destruct (ensure_order_regenerates st n g Hbad) as (o & g' & Heq & Hperm).
    exists o, g'. split; [done|]. split; [done|]. split.
    + unfold len. rewrite Hperm, length_seqZ. lia.
    + rewrite Hperm. apply NoDup_seqZ.
  - intros Hne Hlt. destruct (order st) as [o|] eqn:Ho; [|done].
    split; [|done]. by apply ensure_order_keeps.
Qed.

(** The state [ensure_order] leaves for [n ≥ 1] ideas. *)
Lemma ensure_order_ready (st : state) (n : Z) (g : rng) :
  1 ≤ n →
  ∃ st' o g',
    ensure_order st n g = (st', o, g')
    ∧ order st' = Some o ∧ o ≠ [] ∧ (∀ v, v ∈ o → v < n)
    ∧ ((∀ v, v ∈ default [] (order st) → 0 ≤ v) → ∀ v, v ∈ o → 0 ≤ v)
    ∧ (0 ≤ default 0 (index st) → 0 ≤ default 0 (index st'))
    ∧ last_posted_at st' = last_posted_at st.
Proof.
  intros Hn.
  destruct (decide (default [] (order st) = []
                    ∨ Exists (λ v, n ≤ v) (default [] (order st))))
    as [Hbad|Hgood].
  - rewrite Exists_exists in Hbad.
    destruct (ensure_order_regenerates st n g Hbad) as (o & g' & Heq & Hperm).
    eexists _, o, g'. split; [done|]. cbn.
    split; [done|]. split.
    { intros ->. apply Permutation_nil_l in Hperm.
      apply (f_equal length) in Hperm. rewrite length_seqZ in Hperm.
      cbn in Hperm. lia. }
    split; [intros v Hv; apply (Permutation_seqZ_lt n o Hperm) in Hv; lia|].
    split; [intros _ v Hv; apply (Permutation_seqZ_lt n o Hperm) in Hv; lia|].
    done.
  - assert (default [] (order st) ≠ []) as Hne by tauto.
    assert (¬ Exists (λ v, n ≤ v) (default [] (order st))) as Hlt by tauto.
    rewrite <- Forall_Exists_neg, Forall_forall in Hlt.
    destruct (order st) as [o|] eqn:Ho; [|done]. cbn in *.
    assert (∀ v, v ∈ o → v < n) as Hlt'.
    { intros v Hv. apply Hlt in Hv. lia. }
    exists st, o, g. rewrite (ensure_order_keeps st n g o) by done.
    repeat split; auto.
Qed.

(** X7: the state after [ensure_order] for [n ≥ 1] ideas has a non-empty
    order without a value [v ≥ n], which is the order returned; a second
    call finds nothing to change and draws nothing. *)
Theorem ensure_order_settles (st : state) (n : Z) (g g2 : rng) :
  1 ≤ n →
  let '(st', o, _) := ensure_order st n g in
  order st' = Some o ∧ o ≠ [] ∧ (∀ v, v ∈ o → v < n)
  ∧ ensure_order st' n g2 = (st', o, g2).
Proof.
  intros Hn.
  destruct (ensure_order_ready st n g Hn)
    as (st' & o & g' & -> & Ho & Hne & Hlt & _).
  repeat split; try done. by apply ensure_order_keeps.
Qed.

Lemma ensure_order_settles_witness :
  1 ≤ 3 ∧
  let '(st', o, _) :=
    ensure_order {| index := Some 7; order := Some [0; 5];
                    last_posted_at := None |} 3
      {| tape := λ i, i; pos := 0 |} in
  order st' = Some o ∧ o ≠ [] ∧ (∀ v, v ∈ o → v < 3)
  ∧ ensure_order st' 3 {| tape := λ i, (i + 1)%nat; pos := 4 |}
    = (st', o, {| tape := λ i, (i + 1)%nat; pos := 4 |}).
Proof.
  split; [lia|].
  apply (ensure_order_settles
           {| index := Some 7; order := Some [0; 5]; last_posted_at := None |}
           3 {| tape := λ i, i; pos := 0 |}
           {| tape := λ i, (i + 1)%nat; pos := 4 |}).
  lia.
Defined.

Lemma Permutation_nonempty {A} (a b : list A) : a ≡ₚ b → b ≠ [] → a ≠ [].
Proof. intros Hperm Hb ->. by apply Permutation_nil_l in Hperm. Qed.

(** The selection on a consumed order. *)
Lemma select_consumed (st : state) (g : rng) (o : list Z) :
  order st = Some o → o ≠ [] → len o ≤ default 0 (index st) →
  ∃ o' x g',
    select st g =
      Ok (0, x, {| index := index st; order := Some o';
                   last_posted_at := last_posted_at st |}, g')
    ∧ o' ≡ₚ o ∧ head o' = Some x.
Proof.
  intros Ho Hne Hidx.
  pose proof (shuffle_Permutation o g) as Hperm.
  unfold select. rewrite Ho. cbn [or_raise mbind res_bind].
  destruct (Z.leb_spec (len o) (default 0 (index st))); [|lia].
  destruct (shuffle o g) as [o' g']. cbn [fst] in Hperm.
  destruct o' as [|x o'].
  { by apply Permutation_nil_l in Hperm. }
  exists (x :: o'), x, g'. by cbn.
Qed.

(** X8: a cursor at or past the end of the order makes the selection
    reshuffle: the order kept is a permutation of the old one, the cursor
    used is 0 and the item is the first of the new order. *)
Theorem select_reshuffles (st : state) (g : rng) (o : list Z) :
  order st = Some o → o ≠ [] → len o ≤ default 0 (index st) →
  ∃ o' x g',
    select st g =
      Ok (0, x, {| index := index st; order := Some o';
                   last_posted_at := last_posted_at st |}, g')
    ∧ o' ≡ₚ o ∧ head o' = Some x.
Proof. apply select_consumed. Qed.

Lemma select_reshuffles_witness :
  (len [2; 0; 1] ≤ 3) ∧
  ∃ o' x g',
    select {| index := Some 3; order := Some [2; 0; 1];
              last_posted_at := None |} {| tape := λ i, i; pos := 0 |} =
      Ok (0, x, {| index := Some 3; order := Some o';
                   last_posted_at := None |}, g')
    ∧ o' ≡ₚ [2; 0; 1] ∧ head o' = Some x.
Proof.
  split; [vm_compute; discriminate|].
  apply (select_reshuffles
           {| index := Some 3; order := Some [2; 0; 1];
              last_posted_at := None |}); [done | done |].
  vm_compute. discriminate.
Defined.

(** One turn on a state with a usable order and a cursor that is not
    negative. *)
Lemma rotate_ready (n : Z) (stamp : str) (st : state) (g : rng) (o : list Z) :
  order st = Some o → o ≠ [] → (∀ v, v ∈ o → v < n) →
  0 ≤ default 0 (index st) →
  ∃ i st' g' o' j,
    rotate n stamp st g = Ok (i, st', g')
    ∧ i ∈ o ∧ order st' = Some o' ∧ o' ≡ₚ o
    ∧ index st' = Some j ∧ 1 ≤ j ≤ len o.
Proof.
  intros Ho Hne Hlt Hidx. unfold rotate.
  rewrite (ensure_order_keeps st n g o) by done.
  destruct (Z.le_gt_cases (len o) (default 0 (index st))) as [Hpast|Hin].
  - destruct (select_consumed st g o Ho Hne Hpast)
      as (o' & x & g' & -> & Hperm & Hx).
    cbn [mbind res_bind]. unfold advance. cbn [order].
    eexists x, _, g', o', 1. split; [done|].
    split. { rewrite <- Hperm. destruct o'; [done|]. injection Hx as ->. left. }
    split; [done|]. split; [done|]. split; [done|].
    destruct o; [done|]. unfold len. cbn. lia.
  - destruct (lookup_lt_is_Some_2 o (Z.to_nat (default 0 (index st))))
      as [x Hx]; [unfold len in Hin; lia|].
    rewrite (select_inside st g o (Z.to_nat (default 0 (index st))) x)
      by (done || lia).
    cbn [mbind res_bind]. unfold advance.
    eexists x, _, g, o, _. split; [done|]. cbn.
    split; [by eapply list_elem_of_lookup_2|].
    split; [done|]. split; [done|]. split; [done|]. lia.
Qed.

(** X9: the rotation stays inside the stored order.  From a state whose
    order is not empty and holds no value [v ≥ n], with a cursor that is
    not negative, any number of turns succeeds, selects only values of that
    order, and leaves a permutation of it in the state: an index that the
    stored order lacks is not selected, however many ideas there are. *)
Theorem rotation_keeps_order (k : nat) (n : Z) (stamp : str) (st : state)
    (g : rng) (o : list Z) :
  order st = Some o → o ≠ [] → (∀ v, v ∈ o → v < n) →
  0 ≤ default 0 (index st) →
  ∃ picks st' g' o',
    rotate_many k n stamp st g = Ok (picks, st', g')
    ∧ length picks = k ∧ (∀ i, i ∈ picks → i ∈ o)
    ∧ order st' = Some o' ∧ o' ≡ₚ o.
Proof.
  revert st g o. induction k as [|k IH]; intros st g o Ho Hne Hlt Hidx.
  - exists [], st, g, o. cbn. repeat split; try done.
    by intros i ?%elem_of_nil.
  - destruct (rotate_ready n stamp st g o Ho Hne Hlt Hidx)
      as (i & st1 & g1 & o1 & j & Hrot & Hi & Ho1 & Hperm & Hj & Hjr).
    destruct (IH st1 g1 o1) as (picks & st2 & g2 & o2 & Hrun & Hlen & Hin & Ho2 & Hperm2).
    + done.
    + by apply (Permutation_nonempty _ o).
    + intros v Hv. apply Hlt. by rewrite <- Hperm.
    + rewrite Hj. cbn. lia.
    + exists (i :: picks), st2, g2, o2. cbn [rotate_many].
      rewrite Hrot. cbn [mbind res_bind]. rewrite Hrun. cbn [mbind res_bind].
      split; [done|]. split; [cbn; lia|]. split.
      * intros v [->|Hv]%elem_of_cons; [done|]. rewrite <- Hperm. auto.
      * split; [done|]. by rewrite Hperm2.
Qed.

Lemma rotation_keeps_order_witness :
  ([1; 0] ≠ [] ∧ 0 ≤ default 0 (Some 1)) ∧
  ∃ picks st' g' o',
    rotate_many 7 5 (py "now")
      {| index := Some 1; order := Some [1; 0]; last_posted_at := None |}
      {| tape := λ i, (i * i)%nat; pos := 0 |} = Ok (picks, st', g')
    ∧ length picks = 7%nat ∧ (∀ i, i ∈ picks → i ∈ [1; 0])
    ∧ order st' = Some o' ∧ o' ≡ₚ [1; 0].
Proof.
  split; [split; [done | cbn; lia]|].
  apply rotation_keeps_order; [done | done | | cbn; lia].
  intros v Hv. assert (v = 1 ∨ v = 0) as [-> | ->] by set_solver; lia.
Defined.

Lemma rotate_many_app (a b : nat) (n : Z) (stamp : str) (st : state) (g : rng) :
  rotate_many (a + b) n stamp st g =
    '(p1, st1, g1) ← rotate_many a n stamp st g;
    '(p2, st2, g2) ← rotate_many b n stamp st1 g1;
    Ok (p1 ++ p2, st2, g2).
Proof.
  revert st g. induction a as [|a IH]; intros st g; cbn [rotate_many Nat.add].
  - cbn [mbind res_bind]. by destruct (rotate_many b n stamp st g) as [[[??]?]|].
  - destruct (rotate n stamp st g) as [[[i st1] g1]|]; [|done].
    cbn [mbind res_bind]. rewrite IH.
    destruct (rotate_many a n stamp st1 g1) as [[[p1 st2] g2]|]; [|done].
    cbn [mbind res_bind].
    by destruct (rotate_many b n stamp st2 g2) as [[[??]?]|].
Qed.

(** Turns inside the order, with the state they leave. *)
Lemma rotate_many_inside_state (n : Z) (stamp : str) (p : list Z) (m k : nat)
    (t : option str) (g : rng) :
  p ≡ₚ seqZ 0 n → (k + m = length p)%nat →
  rotate_many m n stamp
    {| index := Some (Z.of_nat k); order := Some p; last_posted_at := t |} g
  = Ok (drop k p,
        {| index := Some (Z.of_nat (k + m)); order := Some p;
           last_posted_at := match m with O => t | S _ => Some stamp end |},
        g).
Proof.
  intros Hp. revert k t. induction m as [|m IH]; intros k t Hkm.
  - cbn [rotate_many]. by rewrite drop_ge, Nat.add_0_r by lia.
  - destruct (lookup_lt_is_Some_2 p k) as [x Hx]; [lia|].
    cbn [rotate_many].
    rewrite (rotate_inside n stamp p k x t g Hp Hx).
    cbn [mbind res_bind]. rewrite (IH (S k) (Some stamp)) by lia.
    cbn [mbind res_bind]. rewrite (drop_S p x k Hx).
    replace (S k + m)%nat with (k + S m)%nat by lia.
    by destruct m.
Qed.

(** A cycle that starts on a consumed order: reshuffle, then every item. *)
Lemma cycle_consumed (n : Z) (stamp : str) (p : list Z) (t : option str)
    (g : rng) :
  1 ≤ n → p ≡ₚ seqZ 0 n →
  ∃ p' g',
    rotate_many (Z.to_nat n) n stamp
      {| index := Some n; order := Some p; last_posted_at := t |} g
    = Ok (p', {| index := Some n; order := Some p';
                 last_posted_at := Some stamp |}, g')
    ∧ p' ≡ₚ seqZ 0 n.
Proof.
  intros Hn Hp.
  assert (length p = Z.to_nat n) as Hlen by (by rewrite Hp, length_seqZ).
  assert (p ≠ []) as Hne by (intros ->; cbn in Hlen; lia).
  destruct (select_consumed
              {| index := Some n; order := Some p; last_posted_at := t |}
              g p eq_refl Hne) as (p' & x & g' & Hsel & Hperm & Hx).
  { unfold len. cbn. lia. }
  cbn [index last_posted_at] in Hsel.
  assert (p' ≡ₚ seqZ 0 n) as Hp' by (by rewrite Hperm).
  assert (length p' = Z.to_nat n) as Hlen' by (by rewrite Hp', length_seqZ).
  destruct (Z.to_nat n) as [|m] eqn:Hm; [lia|].
  exists p', g'. split; [|done]. cbn [rotate_many]. unfold rotate.
  rewrite (ensure_order_keeps _ n g p); [|done|done|].
  2:{ intros v Hv. apply (Permutation_seqZ_lt n p Hp) in Hv. lia. }
  rewrite Hsel. cbn [mbind res_bind]. unfold advance. cbn [order].
  change (0 + 1) with (Z.of_nat 1).
  rewrite (rotate_many_inside_state n stamp p' m 1 (Some stamp) g' Hp')
    by lia.
  cbn [mbind res_bind].
  destruct p' as [|y p']; [done|]. injection Hx as ->. cbn [drop].
  rewrite drop_0. replace (Z.of_nat (1 + m)) with n by lia.
  by destruct m.
Qed.

(** The first cycle, from the default state. *)
Lemma cycle_first (n : Z) (stamp : str) (g : rng) :
  1 ≤ n →
  ∃ p g',
    rotate_many (Z.to_nat n) n stamp default_state g
    = Ok (p, {| index := Some n; order := Some p;
                last_posted_at := Some stamp |}, g')
    ∧ p ≡ₚ seqZ 0 n.
Proof.
  intros Hn.
  pose proof (shuffle_Permutation (seqZ 0 n) g) as Hperm.
  set (p := (shuffle (seqZ 0 n) g).1) in *.
  set (g1 := (shuffle (seqZ 0 n) g).2).
  assert (length p = Z.to_nat n) as Hlen by (by rewrite Hperm, length_seqZ).
  destruct (Z.to_nat n) as [|m] eqn:Hm; [lia|].
  destruct (lookup_lt_is_Some_2 p 0) as [x Hx]; [lia|].
  exists p, g1. split; [|done]. cbn [rotate_many].
  rewrite rotate_default by done. fold p g1.
  pose proof (rotate_inside n stamp p 0 x None g1 Hperm Hx) as Hfirst.
  change (Z.of_nat 0) with 0 in Hfirst. rewrite Hfirst.
  cbn [mbind res_bind].
  rewrite (rotate_many_inside_state n stamp p m 1 (Some stamp) g1 Hperm)
    by lia.
  cbn [mbind res_bind]. rewrite <- (drop_S p x 0 Hx). cbn [drop].
  replace (Z.of_nat (1 + m)) with n by lia.
  by destruct m.
Qed.

Lemma cycles_consumed (c : nat) (n : Z) (stamp : str) (p : list Z)
    (t : option str) (g : rng) :
  1 ≤ n → p ≡ₚ seqZ 0 n →
  ∃ cycles st g',
    rotate_many (c * Z.to_nat n) n stamp
      {| index := Some n; order := Some p; last_posted_at := t |} g
    = Ok (concat cycles, st, g')
    ∧ length cycles = c ∧ Forall (λ cy, cy ≡ₚ seqZ 0 n) cycles.
Proof.
  intros Hn. revert p t g. induction c as [|c IH]; intros p t g Hp.
  - by exists [], {| index := Some n; order := Some p; last_posted_at := t |}, g.
  - destruct (cycle_consumed n stamp p t g Hn Hp) as (p' & g' & Hrun & Hp').
    destruct (IH p' (Some stamp) g' Hp') as (cycles & st & g'' & Hrest & Hlen & Hall).
    exists (p' :: cycles), st, g''.
    cbn [Nat.mul]. rewrite rotate_many_app, Hrun. cbn [mbind res_bind].
    rewrite Hrest. cbn [mbind res_bind concat].
    split; [done|]. split; [cbn; lia | by constructor].
Qed.

(** X10: cycle after cycle.  From the default state, [c] times [n] turns
    select [c] cycles one after the other, each of them a permutation of
    [0, n): no index comes a second time before all the others have had
    their turn in the cycle. *)
Theorem rotation_cycles (c : nat) (n : Z) (stamp : str) (g : rng) :
  1 ≤ n →
  ∃ cycles st g',
    rotate_many (c * Z.to_nat n) n stamp default_state g
    = Ok (concat cycles, st, g')
    ∧ length cycles = c ∧ Forall (λ cy, cy ≡ₚ seqZ 0 n) cycles.
Proof.
  intros Hn. destruct c as [|c].
  - by exists [], default_state, g.
  - destruct (cycle_first n stamp g Hn) as (p & g1 & Hrun & Hp).
    destruct (cycles_consumed c n stamp p (Some stamp) g1 Hn Hp)
      as (cycles & st & g' & Hrest & Hlen & Hall).
    exists (p :: cycles), st, g'.
    cbn [Nat.mul]. rewrite rotate_many_app, Hrun. cbn [mbind res_bind].
    rewrite Hrest. cbn [mbind res_bind concat].
    split; [done|]. split; [cbn; lia | by constructor].
Qed.

Lemma rotation_cycles_witness :
  1 ≤ 3 ∧
  ∃ cycles st g',
    rotate_many (2 * Z.to_nat 3) 3 (py "now") default_state
      {| tape := λ i, (i * 7 + 3)%nat; pos := 0 |}
    = Ok (concat cycles, st, g')
    ∧ length cycles = 2%nat ∧ Forall (λ cy, cy ≡ₚ seqZ 0 3) cycles.
Proof. split; [lia | apply rotation_cycles; lia]. Defined.

(** ** Publisher *)

Lemma truthy_py_or (a b : option str) :
  truthy (py_or a b) = truthy a || truthy b.
Proof. unfold py_or. by destruct (truthy a) eqn:Ha. Qed.

Section RunMore.
Context `{Host}.

Lemma truthy_getenv (w : world) (k : string) :
  truthy (getenv w k) = true ↔ ∃ v, environ w !! k = Some v ∧ v ≠ [].
Proof.
  unfold getenv. destruct (environ w !! k) as [[|c v]|]; cbn.
  - split; [done | by intros (v & [= <-] & ?)].
  - split; [by exists (c :: v) | done].
  - split; [done | by intros (v & ? & _)].
Qed.

Lemma truthy_either (w : world) (a b : string) :
  truthy (py_or (getenv w a) (getenv w b)) = true ↔
    (∃ v, environ w !! a = Some v ∧ v ≠ [])
    ∨ (∃ v, environ w !! b = Some v ∧ v ≠ []).
Proof. by rewrite truthy_py_or, orb_true_iff, !truthy_getenv. Qed.

(** X11: the outcomes of [post_tweet].  Each of the four credentials is
    taken under its TWITTER_ name or, when that one is unset or empty,
    under its X_ name.  With all four the result is the API's; with one
    missing under both names RuntimeError is raised, whatever the API
    would answer. *)
Theorem post_tweet_outcome (w : world) (text : str) :
  let set k := ∃ v, environ w !! k = Some v ∧ v ≠ [] in
  let credentials :=
    (set "TWITTER_API_KEY"%string ∨ set "X_API_KEY"%string)
    ∧ (set "TWITTER_API_SECRET"%string ∨ set "X_API_SECRET"%string)
    ∧ (set "TWITTER_ACCESS_TOKEN"%string ∨ set "X_ACCESS_TOKEN"%string)
    ∧ (set "TWITTER_ACCESS_SECRET"%string ∨ set "X_ACCESS_SECRET"%string) in
  (post_tweet w text = Ok () ↔ credentials ∧ update_status w text = true)
  ∧ (post_tweet w text = Raise TweepyException ↔
       credentials ∧ update_status w text = false)
  ∧ (post_tweet w text = Raise RuntimeError ↔ ¬ credentials).
Proof.
  intros set credentials. subst credentials set. cbv beta.
  rewrite <- !truthy_either. unfold post_tweet. cbn [forallb].
  destruct (truthy (py_or (getenv w "TWITTER_API_KEY") _));
    destruct (truthy (py_or (getenv w "TWITTER_API_SECRET") _));
    destruct (truthy (py_or (getenv w "TWITTER_ACCESS_TOKEN") _));
    destruct (truthy (py_or (getenv w "TWITTER_ACCESS_SECRET") _));
    destruct (update_status w text); cbn; intuition congruence.
Qed.

(** ** One run, continued *)

Lemma load_ideas_nonempty (w : world) (ideas : list str) :
  load_ideas w = Ok ideas → 1 ≤ len ideas.
Proof.
  unfold load_ideas. destruct (content_file w); [done..|].
  destruct (filter _ _); [done|]. intros [= <-]. unfold len. cbn. lia.
Qed.

Lemma build_tweet_total (w : world) (raw_text tzname : str) :
  tzname = [] ∨ is_Some (pytz_timezone tzname) →
  ∃ tweet, build_tweet w raw_text tzname = Ok tweet.
Proof.
  intros Hzone. unfold build_tweet.
  destruct tzname as [|c tzname]; cbn [nonempty]; [by eexists|].
  destruct Hzone as [|[tz ->]]; [done|]. by eexists.
Qed.


Lemma getitem_in_range {A} (l : list A) (i : Z) :
  0 ≤ i < len l → ∃ x, getitem l i = Some x ∧ x ∈ l.
Proof.
  intros Hi. unfold getitem. destruct (Z.leb_spec 0 i); [|lia].
  destruct (lookup_lt_is_Some_2 l (Z.to_nat i)) as [x Hx];
    [unfold len in Hi; lia|].
  exists x. split; [done|]. by eapply list_elem_of_lookup_2.
Qed.



(** X13: an unknown timezone name stops every run.  The gate lets the run
    through, but composing the post needs the zone: the run ends in an
    exception, nothing is posted and nothing is written. *)
Theorem unknown_timezone_never_posts (w : world) :
  timezone w ≠ [] → pytz_timezone (timezone w) = None →
  within_run_window w (timezone w) (run_window_start w) (run_window_end w)
    = true
  ∧ (∃ e, main w = (Crashed e, w))
  ∧ (∀ ideas st idx i raw,
       choose w = Ok (ideas, st, idx, i) → getitem ideas i = Some raw →
       main w = (Crashed UnknownTimeZoneError, w)).
Proof.
  intros Hname Hzone.
  assert (within_run_window w (timezone w) (run_window_start w)
            (run_window_end w) = true) as Hgate.
  { unfold within_run_window, window_check. rewrite Hzone.
    by destruct (negb _). }
  assert (∀ raw, build_tweet w raw (timezone w) = Raise UnknownTimeZoneError)
    as Hbuild.
  { intros raw. unfold build_tweet.
    destruct (timezone w) as [|c tz]; [done|]. cbn [nonempty].
    by rewrite Hzone. }
  split; [done|]. unfold main. rewrite Hgate. cbn [negb]. unfold attempt.
  split.
  - destruct (choose w) as [[[[ideas st] idx] i]|e']; [|by eexists].
    cbn [mbind res_bind].
    destruct (getitem ideas i) as [raw|]; cbn [or_raise mbind res_bind];
      [|by eexists].
    rewrite Hbuild. by eexists.
  - intros ideas st idx i raw -> Hraw. cbn [mbind res_bind].
    rewrite Hraw. cbn [or_raise mbind res_bind]. by rewrite Hbuild.
Qed.

End RunMore.


Lemma unknown_timezone_never_posts_witness :
  @pytz_timezone sample_host (py "Mars/Phobos") = None
  ∧ ∃ e,
      main (sample_world {[ "TIMEZONE"%string := py "Mars/Phobos" ]} two_ideas
              Missing 10 30 (λ i, i) true)
      = (Crashed e,
         sample_world {[ "TIMEZONE"%string := py "Mars/Phobos" ]} two_ideas
           Missing 10 30 (λ i, i) true).
Proof.
  split; [reflexivity|].
  apply (unknown_timezone_never_posts (H:=sample_host)
           (sample_world {[ "TIMEZONE"%string := py "Mars/Phobos" ]} two_ideas
              Missing 10 30 (λ i, i) true)); [done | reflexivity].
Defined.

(** ** Time gate, continued *)

Section GateMore.
Context `{Host}.

(** The gate for any two bounds that [int] reads, padded or not. *)
Lemma window_open_parsed (w : world) (tzname start_hm end_hm : str)
    (tz : tzinfo) (sh sm eh em : Z) :
  tzname ≠ [] → pytz_timezone tzname = Some tz → valid_time (now_in w tz) →
  parse_hm start_hm = Some (sh, sm) → parse_hm end_hm = Some (eh, em) →
  0 ≤ sh ≤ 23 → 0 ≤ sm ≤ 59 → 0 ≤ eh ≤ 23 → 0 ≤ em ≤ 59 →
  within_run_window w tzname start_hm end_hm =
    if time_of_day sh sm 0 0 <? time_of_day eh em 0 0
    then (time_of_day sh sm 0 0 <=? clock_reading (now_in w tz))
         && (clock_reading (now_in w tz) <? time_of_day eh em 0 0)
    else (time_of_day sh sm 0 0 <=? clock_reading (now_in w tz))
         || (clock_reading (now_in w tz) <? time_of_day eh em 0 0).
Proof.
  intros Hname Htz (_ & Hmin & Hsec & Hus) Hstart Hend Hsh Hsm Heh Hem.
  unfold within_run_window, window_check.
  destruct tzname as [|c tzname]; [done|].
  destruct start_hm as [|c1 start_hm]; [done|].
  destruct end_hm as [|c2 end_hm]; [done|].
  cbn [nonempty andb negb].
  rewrite Htz. cbn [mbind option_bind].
  rewrite Hstart, Hend. cbn [mbind option_bind].
  unfold replace_time.
  rewrite !(proj2 (andb_true_iff _ _)) by (repeat split; lia).
  cbn [mbind option_bind].
  set (d := now_in w tz) in *.
  set (s := {| year := year d; month := month d; day := day d; hour := sh;
               minute := sm; second := 0; microsecond := 0 |}).
  set (e := {| year := year d; month := month d; day := day d; hour := eh;
               minute := em; second := 0; microsecond := 0 |}).
  destruct (dt_le_same_day e s) as [Hes _];
    [by apply lex_compare_same_day|].
  destruct (dt_le_same_day s d) as [Hsd _];
    [by apply lex_compare_same_day|].
  destruct (dt_le_same_day d e) as [_ Hde];
    [by apply lex_compare_same_day|].
  rewrite Hes, Hsd, Hde.
  change (clock_reading s) with (time_of_day sh sm 0 0).
  change (clock_reading e) with (time_of_day eh em 0 0).
  destruct (Z.leb_spec (time_of_day eh em 0 0) (time_of_day sh sm 0 0)),
    (Z.ltb_spec (time_of_day sh sm 0 0) (time_of_day eh em 0 0)); try lia;
    by destruct (_ <=? _), (_ <? _).
Qed.

(** X14: the two windows between two bounds.  With a known timezone and
    two bounds in range that differ, the window from the first to the
    second is open exactly when the window from the second to the first is
    closed; with two equal bounds the window is open around the clock. *)
Theorem window_swapped (w : world) (tzname a b : str) (tz : tzinfo)
    (ah am bh bm : Z) :
  tzname ≠ [] → pytz_timezone tzname = Some tz → valid_time (now_in w tz) →
  parse_hm a = Some (ah, am) → parse_hm b = Some (bh, bm) →
  0 ≤ ah ≤ 23 → 0 ≤ am ≤ 59 → 0 ≤ bh ≤ 23 → 0 ≤ bm ≤ 59 →
  ((ah, am) ≠ (bh, bm) →
   within_run_window w tzname a b = negb (within_run_window w tzname b a))
  ∧ ((ah, am) = (bh, bm) → within_run_window w tzname a b = true).
Proof.
  intros Hname Htz Hnow Ha Hb Hah Ham Hbh Hbm.
  rewrite (window_open_parsed w tzname a b tz ah am bh bm) by done.
  rewrite (window_open_parsed w tzname b a tz bh bm ah am) by done.
  unfold time_of_day. split.
  - intros Hne.
    assert ((ah * 60 + am) * 60 ≠ (bh * 60 + bm) * 60) as Hne'.
    { intros Heq. apply Hne. f_equal; lia. }
    destruct (Z.ltb_spec (((ah * 60 + am) * 60 + 0) * 1000000 + 0)
                         (((bh * 60 + bm) * 60 + 0) * 1000000 + 0)),
      (Z.ltb_spec (((bh * 60 + bm) * 60 + 0) * 1000000 + 0)
                  (((ah * 60 + am) * 60 + 0) * 1000000 + 0)); try lia;
      destruct (Z.leb_spec (((ah * 60 + am) * 60 + 0) * 1000000 + 0)
                           (clock_reading (now_in w tz))),
        (Z.ltb_spec (clock_reading (now_in w tz))
                    (((bh * 60 + bm) * 60 + 0) * 1000000 + 0)),
        (Z.leb_spec (((bh * 60 + bm) * 60 + 0) * 1000000 + 0)
                    (clock_reading (now_in w tz))),
        (Z.ltb_spec (clock_reading (now_in w tz))
                    (((ah * 60 + am) * 60 + 0) * 1000000 + 0));
      cbn; try done; lia.
  - intros [= -> ->]. rewrite Z.ltb_irrefl.
    destruct (Z.leb_spec (((bh * 60 + bm) * 60 + 0) * 1000000 + 0)
                         (clock_reading (now_in w tz))),
        (Z.ltb_spec (clock_reading (now_in w tz))
                    (((bh * 60 + bm) * 60 + 0) * 1000000 + 0));
      cbn; try done; lia.
Qed.

End GateMore.

Lemma window_swapped_witness :
  within_run_window (sample_world ∅ Missing Missing 23 30 (λ i, i) true)
    (py "Europe/Riga") (py "22:00") (py "2:00")
  = negb (within_run_window
            (sample_world ∅ Missing Missing 23 30 (λ i, i) true)
            (py "Europe/Riga") (py "2:00") (py "22:00")).
Proof.
  refine (proj1 (window_swapped (H:=sample_host) _ (py "Europe/Riga")
                   (py "22:00") (py "2:00") 120 22 0 2 0
                   _ _ _ _ _ _ _ _ _) _);
    try reflexivity; try done; unfold valid_time; cbn; lia.
Defined.

(** ** Launch after launch *)

Lemma unzigzag_zigzag (z : Z) : unzigzag (zigzag z) = z.
Proof.
  unfold unzigzag, zigzag. destruct (Z.leb_spec 0 z).
  - rewrite Z2N.id by lia. rewrite Z.even_mul. cbn [Z.even orb].
    by rewrite Z.mul_comm, Z.div_mul.
  - rewrite Z2N.id by lia.
    replace (- 2 * z - 1) with (1 + 2 * (- z - 1)) by lia.
    rewrite Z.even_add_mul_2. cbn [Z.even].
    replace (1 + 2 * (- z - 1) + 1) with ((- z) * 2) by lia.
    rewrite Z.div_mul by done. lia.
Qed.

Lemma read_write_index (i : option Z) (rest : str) :
  read_index (write_index i ++ rest) = Some (i, rest).
Proof. destruct i; cbn; by rewrite ?unzigzag_zigzag. Qed.

Lemma read_write_order (o : option (list Z)) (rest : str) :
  read_order (write_order o ++ rest) = Some (o, rest).
Proof.
  destruct o as [o|]; [|done]. cbn [write_order app read_order].
  rewrite Nat2N.id.
  rewrite decide_True by (rewrite length_app, length_fmap; lia).
  rewrite <- (length_fmap zigzag o).
  rewrite take_app_length, drop_app_length, <- list_fmap_compose.
  rewrite (list_fmap_ext (unzigzag ∘ zigzag) id o), list_fmap_id; [done|].
  intros _ z _. apply unzigzag_zigzag.
Qed.

Lemma read_write_stamp (t : option str) :
  read_stamp (write_stamp t) = Some t.
Proof. by destruct t. Qed.

Lemma numbers_round_trip (st : state) :
  numbers_loads (numbers_dumps st) = Some st.
Proof.
  destruct st as [i o t]. unfold numbers_dumps, numbers_loads.
  cbn [index order last_posted_at].
  rewrite read_write_index. cbn [mbind option_bind].
  rewrite read_write_order. cbn [mbind option_bind].
  by rewrite read_write_stamp.
Qed.

Section Days.
Context `{Host}.

(** A launch on a ready day whose selection succeeds with an idea index in
    range posts that idea and saves the advanced state. *)
Lemma day_posts (d : world) (f : file) (ideas : list str) (st : state)
    (idx i : Z) :
  ready d ideas →
  choose (with_state_file d f) = Ok (ideas, st, idx, i) →
  0 ≤ i < len ideas →
  ∃ o,
    main (with_state_file d f) =
      (o, with_state_file d
            (Contents (json_dumps (advance st idx (utc_stamp d)))))
    ∧ posts ideas o d i.
Proof.
  intros (Hideas & Hgate & Hzone & Hpost & Hwrite) Hchoose Hi.
  destruct (getitem_in_range ideas i Hi) as (raw & Hraw & _).
  destruct (build_tweet_total d (substitute_topic (topic d) raw) (timezone d)
              Hzone) as [tweet Htweet].
  exists (Posted tweet). split; [|by exists raw, tweet].
  unfold main.
  change (within_run_window (with_state_file d f)
            (timezone (with_state_file d f))
            (run_window_start (with_state_file d f))
            (run_window_end (with_state_file d f)))
    with (within_run_window d (timezone d) (run_window_start d)
            (run_window_end d)).
  rewrite Hgate. cbn [negb].
  unfold attempt. rewrite Hchoose. cbn [mbind res_bind].
  rewrite Hraw. cbn [or_raise mbind res_bind].
  change (build_tweet (with_state_file d f)
            (substitute_topic (topic (with_state_file d f)) raw)
            (timezone (with_state_file d f)))
    with (build_tweet d (substitute_topic (topic d) raw) (timezone d)).
  rewrite Htweet. cbn [mbind res_bind].
  change (post_tweet (with_state_file d f) tweet) with (post_tweet d tweet).
  rewrite Hpost. unfold save_state.
  change (write_error (with_state_file d f)) with (write_error d).
  by rewrite Hwrite.
Qed.

(** The launches that find the cursor inside a stored permutation. *)
Lemma run_days_inside (days : list world) (ideas : list str) (p : list Z)
    (k : nat) (t : option str) :
  (∀ st, json_loads (json_dumps st) = Some st) →
  Forall (λ d, ready d ideas) days →
  p ≡ₚ seqZ 0 (len ideas) → (k + length days = length p)%nat →
  ∃ t',
    Forall2 (λ o di, posts ideas o di.1 di.2)
      (run_days days
         (Contents (json_dumps {| index := Some (Z.of_nat k); order := Some p;
                                  last_posted_at := t |}))).1
      (zip days (drop k p))
    ∧ (run_days days
         (Contents (json_dumps {| index := Some (Z.of_nat k); order := Some p;
                                  last_posted_at := t |}))).2
      = Contents (json_dumps
          {| index := Some (Z.of_nat (k + length days)); order := Some p;
             last_posted_at := t' |}).
Proof.
  intros Hcodec Hdays Hp. revert k t.
  induction Hdays as [|d days Hd Hdays IH]; intros k t Hk.
  - exists t. cbn. split; [constructor|]. by rewrite Nat.add_0_r.
  - cbn [length] in Hk.
    destruct (lookup_lt_is_Some_2 p k) as [i Hi]; [lia|].
    set (st := {| index := Some (Z.of_nat k); order := Some p;
                  last_posted_at := t |}).
    set (f := Contents (json_dumps st)).
    assert (load_state (with_state_file d f) = st) as Hload.
    { unfold load_state. cbn. by rewrite Hcodec. }
    assert (choose (with_state_file d f) = Ok (ideas, st, Z.of_nat k, i))
      as Hchoose.
    { rewrite (choose_inside (with_state_file d f) ideas p k i);
        rewrite ?Hload; try done.
      - apply Hd.
      - intros v Hv. apply (Permutation_seqZ_lt _ p Hp) in Hv. lia. }
    assert (0 ≤ i < len ideas) as Hrange.
    { apply (Permutation_seqZ_lt _ p Hp). by eapply list_elem_of_lookup_2. }
    destruct (day_posts d f ideas st (Z.of_nat k) i Hd Hchoose Hrange)
      as (o & Hmain & Hposts).
    destruct (IH (S k) (Some (utc_stamp d))) as (t' & Hall & Hfile); [lia|].
    exists t'. cbn [run_days]. rewrite Hmain.
    cbn [with_state_file state_file]. unfold advance. cbn [order].
    replace (Z.of_nat k + 1) with (Z.of_nat (S k)) by lia.
    destruct (run_days days _) as [os f'] eqn:Hrun. cbn [fst snd] in *.
    rewrite (drop_S p i k Hi). cbn [zip zip_with].
    split; [by constructor|].
    rewrite Hfile. cbn [length].
    by replace (S k + length days)%nat with (k + S (length days))%nat by lia.
Qed.

(** X15: the first cycle, launch by launch.  On as many ready days as there
    are ideas (ideas loading, window open, timezone empty or known, post
    accepted, state file writable), starting without a state file and with
    a codec that reads back what it writes, every launch posts, and the
    ideas posted are the ideas of the file in the order of a permutation:
    each is posted once.  The state file left holds that permutation and a
    cursor at its end. *)
Theorem run_days_full_cycle (days : list world) (ideas : list str) :
  (∀ st, json_loads (json_dumps st) = Some st) →
  days ≠ [] → Forall (λ d, ready d ideas) days →
  length days = length ideas →
  ∃ p t,
    p ≡ₚ seqZ 0 (len ideas)
    ∧ Forall2 (λ o di, posts ideas o di.1 di.2)
        (run_days days Missing).1 (zip days p)
    ∧ (run_days days Missing).2 =
        Contents (json_dumps {| index := Some (len ideas); order := Some p;
                                last_posted_at := t |}).
Proof.
  intros Hcodec Hne Hdays Hlen.
  destruct days as [|d days]; [done|].
  apply Forall_cons in Hdays as [Hd Hdays].
  pose proof Hd as (Hideas & _).
  pose proof (load_ideas_nonempty d ideas Hideas) as Hn.
  pose proof (shuffle_Permutation (seqZ 0 (len ideas)) (gen d)) as Hperm.
  set (p := (shuffle (seqZ 0 (len ideas)) (gen d)).1) in *.
  assert (length p = length ideas) as Hlenp.
  { rewrite Hperm, length_seqZ. unfold len. lia. }
  destruct (lookup_lt_is_Some_2 p 0) as [i Hi]; [unfold len in Hn; lia|].
  set (st := {| index := Some 0; order := Some p; last_posted_at := None |}).
  assert (choose (with_state_file d Missing) = Ok (ideas, st, 0, i))
    as Hchoose.
  { unfold choose.
    change (load_ideas (with_state_file d Missing)) with (load_ideas d).
    rewrite Hideas. cbn [mbind res_bind].
    change (load_state (with_state_file d Missing)) with default_state.
    change (gen (with_state_file d Missing)) with (gen d).
    unfold ensure_order. cbn [default_state order default].
    rewrite bool_decide_eq_true_2 by done. cbn [orb].
    fold p. destruct (shuffle (seqZ 0 (len ideas)) (gen d)) as [p' g'].
    cbn [fst] in p. subst p.
    change (last_posted_at default_state) with (@None str). fold st.
    by rewrite (select_inside st g' p' 0 i). }
  assert (0 ≤ i < len ideas) as Hrange.
  { apply (Permutation_seqZ_lt _ p Hperm). by eapply list_elem_of_lookup_2. }
  destruct (day_posts d Missing ideas st 0 i Hd Hchoose Hrange)
    as (o & Hmain & Hposts).
  destruct (run_days_inside days ideas p 1 (Some (utc_stamp d)) Hcodec Hdays
              Hperm) as (t' & Hall & Hfile); [cbn in Hlen; lia|].
  exists p, t'. split; [done|].
  cbn [run_days]. rewrite Hmain.
  cbn [with_state_file state_file]. unfold advance. cbn [order].
  change (0 + 1) with (Z.of_nat 1).
  destruct (run_days days _) as [os f'] eqn:Hrun. cbn [fst snd] in *.
  destruct p as [|i' p']; [done|]. injection Hi as ->.
  cbn [drop] in Hall.
  cbn [zip zip_with]. split; [by constructor|].
  rewrite Hfile. unfold len. rewrite <- Hlen. by cbn [length Nat.add].
Qed.

End Days.

Lemma run_days_full_cycle_witness :
  ((∀ st, @json_loads numbers_host (@json_dumps numbers_host st) = Some st)
   ∧ Forall (λ d, ready d [py "a"; py "b"])
       [numbers_day (λ i, i); numbers_day (λ i, 5%nat)])
  ∧ ∃ p t,
      p ≡ₚ seqZ 0 (len [py "a"; py "b"])
      ∧ Forall2 (λ o di, posts [py "a"; py "b"] o di.1 di.2)
          (run_days [numbers_day (λ i, i); numbers_day (λ i, 5%nat)]
             Missing).1
          (zip [numbers_day (λ i, i); numbers_day (λ i, 5%nat)] p)
      ∧ (run_days [numbers_day (λ i, i); numbers_day (λ i, 5%nat)]
           Missing).2 =
          Contents
            (@json_dumps numbers_host
               {| index := Some (len [py "a"; py "b"]); order := Some p;
                  last_posted_at := t |}).
Proof.
  assert (∀ draws, @ready numbers_host (numbers_day draws) [py "a"; py "b"])
    as Hready.
  { intros draws. split; [reflexivity|]. split; [vm_compute; reflexivity|].
    split; [right; by exists 120|].
    split; [intros text; vm_compute; reflexivity | reflexivity]. }
  split; [split; [apply numbers_round_trip | by repeat constructor]|].
  apply (run_days_full_cycle (H:=numbers_host)).
  - apply numbers_round_trip.
  - done.
  - by repeat constructor.
  - reflexivity.
Defined.

Lemma post_tweet_outcome_witness :
  post_tweet (sample_world ∅ two_ideas Missing 10 30 (λ i, i) false)
    (py "a") = Raise TweepyException.
Proof.
  apply (post_tweet_outcome (H:=sample_host)
           (sample_world ∅ two_ideas Missing 10 30 (λ i, i) false) (py "a")).
  split; [|reflexivity].
  split; [left; by exists (py "k")|].
  split; [left; by exists (py "s")|].
  split; [right; by exists (py "t") | right; by exists (py "u")].
Defined.

(** A run without the [data] directory: the post goes out, [save_state]
    raises FileNotFoundError, and no state is stored. *)
Lemma post_without_data_unsaved :
  main without_data = (Unsaved (py "b") FileNotFoundError, without_data)
  ∧ state_file (main without_data).2 = Missing.
Proof. split; vm_compute; reflexivity. Qed.
